(** * componentsjs-generator: the class loader

    A shallow embedding of [ClassLoader] (lib/parse/ClassLoader.ts): the
    extraction of a file's class elements, the resolution of a class
    reference across imports and re-exports, and the helpers that read the
    heritage clauses and the type parameters of a declaration.

    Conventions of the embedding:
    - a JavaScript object created by [{}] and used as a hash is a [Hash]:
      its own entries and the object that an assignment to [__proto__] has
      made its prototype.  [k in o] and [o[k]] are [member], which also
      finds what the object inherits; [o[k] = v] is [<[k:=v]> o];
    - [throw new Error(m)] is [Throw m], with [m] the message the source
      builds;
    - [loadClassDeclaration] recurses through the files of a package with no
      bound, so it is defined with a recursion budget: [None] means that the
      budget ran out before the call settled;
    - the parser, Node's [path] module and the comment loader are
      collaborators of the class: they are fields of the [ClassLoader]
      record. *)

From Stdlib Require Import Ascii.
From stdpp Require Import base option list strings gmap pretty.

Open Scope string_scope.

(** ** Results of calls that can throw

    [Beyond] is the outcome of a call that has left what the embedding
    describes: it read a member through an object that an assignment to
    [__proto__] made the prototype of a hash, and what that object passes
    on is not written in these sources; or it took a member of
    [Object.prototype] for the reference of a binding and went on with it.
    Nothing is stated of such a call. *)

Inductive Result (A : Type) : Type :=
| Return (value : A)
| Throw (message : string)
| Beyond.
Arguments Return {A} value.
Arguments Throw {A} message.
Arguments Beyond {A}.

#[global] Instance Result_ret : MRet Result := λ A, @Return A.
#[global] Instance Result_bind : MBind Result := λ A B f r,
  match r with
  | Return a => f a
  | Throw m => Throw m
  | Beyond => Beyond
  end.
#[global] Instance Result_fmap : FMap Result := λ A B f r,
  match r with
  | Return a => Return (f a)
  | Throw m => Throw m
  | Beyond => Beyond
  end.

(** ** JavaScript objects used as hashes *)

(** The own property names of [Object.prototype]: every object created by
    [{}] has these members without any assignment. *)
Definition objectPrototypeMembers : list string :=
  ["constructor"; "__defineGetter__"; "__defineSetter__"; "hasOwnProperty";
   "__lookupGetter__"; "__lookupSetter__"; "isPrototypeOf";
   "propertyIsEnumerable"; "toString"; "valueOf"; "__proto__"; "toLocaleString"].

(** An object created by [{}] to which objects of type [V] are assigned:
    its own entries, and its prototype when an assignment to [__proto__]
    has replaced [Object.prototype] by one of these objects. *)
Record Hash (V : Type) := {
  entries : gmap string V;
  prototype : option V;
}.
Arguments entries {V} _.
Arguments prototype {V} _.

(** [{}] *)
#[global] Instance Hash_empty {V} : Empty (Hash V) :=
  {| entries := ∅; prototype := None |}.

(** [o[k] = v] for an object [v].  [__proto__] is an accessor of
    [Object.prototype]: the assignment makes [v] the prototype of [o] and
    adds no entry.  Every other name becomes an entry. *)
#[global] Instance Hash_insert {V} : Insert string V (Hash V) := λ k v o,
  if decide (k = "__proto__")
  then {| entries := entries o; prototype := Some v |}
  else {| entries := <[k := v]> (entries o); prototype := prototype o |}.

(** What an assignment of the code has put under [k], as [o[k]] reads it
    back: the entry, and for [__proto__] the object that became the
    prototype. *)
#[global] Instance Hash_lookup {V} : Lookup string V (Hash V) := λ k o,
  if decide (k = "__proto__") then prototype o else entries o !! k.

#[global] Instance Hash_singleton {V} : SingletonM string V (Hash V) :=
  λ k v, <[k := v]> ∅.

(** [o[k] = v] for a string or a boolean [v]: the accessor [__proto__]
    ignores a value that is not an object, so that assignment changes
    nothing. *)
Definition assignPrimitive {V} (k : string) (v : V) (o : gmap string V)
  : gmap string V :=
  if decide (k = "__proto__") then o else <[k := v]> o.

(** The value of [o[k]] when [k in o]: a value the code has assigned, or the
    member [k] of [Object.prototype]. *)
Inductive Found (V : Type) : Type :=
| Written (value : V)
| Builtin (name : string).
Arguments Written {V} value.
Arguments Builtin {V} name.

(** [k in o] and [o[k]].  [Unknown]: the prototype of [o] has been replaced
    and [k] is none of the names assigned, so whether [k in o] holds and
    what [o[k]] is depends on the members of the object that is now the
    prototype. *)
Inductive Member (V : Type) : Type :=
| Present (found : Found V)
| Unknown
| Missing.
Arguments Present {V} found.
Arguments Unknown {V}.
Arguments Missing {V}.

Definition member {V} (o : Hash V) (k : string) : Member V :=
  match o !! k with
  | Some v => Present (Written v)
  | None =>
      match prototype o with
      | Some _ => Unknown
      | None =>
          if decide (k ∈ objectPrototypeMembers) then Present (Builtin k)
          else Missing
      end
  end.

(** ** The fragment of the ESTree syntax the loader reads *)

Record Position := { line : nat; column : nat }.
Record SourceLocation := { start : Position }.

(** A type node is opaque to the loader: it is only stored. *)
Inductive TypeNode :=
| TSTypeReference (typeName : string)
| TSKeyword (keyword : string).

Inductive Expression :=
| Identifier (name : string) (loc : SourceLocation)
| MemberExpression (object property : Expression) (loc : SourceLocation)
| OtherExpression (type : string) (loc : SourceLocation).

Definition expression_loc (e : Expression) : SourceLocation :=
  match e with
  | Identifier _ l | MemberExpression _ _ l | OtherExpression _ l => l
  end.

(** [param.name.name] and [param.constraint] *)
Record TSTypeParameter := {
  tp_name : string;
  constraint : option TypeNode;
}.

Record ClassDeclaration := {
  class_id : option string;
  superClass : option Expression;
  abstract : option bool;
  class_typeParameters : option (list TSTypeParameter);
  class_loc : SourceLocation;
}.

Inductive HeritageType := TSInterfaceHeritage | OtherHeritage.

Record InterfaceHeritage := {
  heritage_type : HeritageType;
  expression : Expression;
  heritage_loc : SourceLocation;
}.

Record TSInterfaceDeclaration := {
  interface_id : string;
  extends : option (list InterfaceHeritage);
  interface_typeParameters : option (list TSTypeParameter);
  interface_loc : SourceLocation;
}.

(** [statement.source]: the loader asks for a [Literal] whose value is a
    string. *)
Inductive SourceNode :=
| StringLiteral (value : string)
| OtherLiteral
| NotLiteral.

Record ExportSpecifier := { es_local : string; es_exported : string }.

Inductive ImportClause :=
| ImportSpecifier (local imported : string)
| ImportDefaultSpecifier (local : string)
| ImportNamespaceSpecifier (local : string).

(** [statement.declaration] of an [ExportNamedDeclaration] *)
Inductive ExportedDeclaration :=
| ExportedClass (declaration : ClassDeclaration)
| ExportedInterface (declaration : TSInterfaceDeclaration)
| ExportedOther.

Inductive Statement :=
| ExportNamedDeclaration (declaration : option ExportedDeclaration)
    (source : option SourceNode) (specifiers : list ExportSpecifier)
| ExportAllDeclaration (source : option SourceNode)
| ClassDeclarationStatement (declaration : ClassDeclaration)
| TSInterfaceDeclarationStatement (declaration : TSInterfaceDeclaration)
| ImportDeclaration (source : SourceNode) (specifiers : list ImportClause)
| OtherStatement.

(** A comment of the file, as the parser lists it in [ast.comments]. *)
Record Comment := { comment_value : string; comment_loc : SourceLocation }.

Record AST := { body : list Statement; comments : list Comment }.

(** ** ClassIndex.ts *)

Record ClassReference := { localName : string; fileName : string }.

Record GenericType := { type : option TypeNode }.
Abbreviation GenericTypes := (Hash GenericType).

Record ClassLoaded := {
  cl_localName : string;
  cl_fileName : string;
  cl_declaration : Found ClassDeclaration;
  cl_ast : AST;
  cl_abstract : option bool;
  cl_generics : GenericTypes;
  cl_comment : option string;
}.

Record InterfaceLoaded := {
  il_localName : string;
  il_fileName : string;
  il_declaration : Found TSInterfaceDeclaration;
  il_ast : AST;
  il_generics : GenericTypes;
  il_comment : option string;
}.

(** The [type] tag of a loaded reference is the constructor. *)
Inductive ClassReferenceLoaded :=
| LoadedClass (loaded : ClassLoaded)
| LoadedInterface (loaded : InterfaceLoaded).

Definition isInterface (loaded : ClassReferenceLoaded) : bool :=
  match loaded with
  | LoadedClass _ => false
  | LoadedInterface _ => true
  end.

Definition withComment (loaded : ClassReferenceLoaded) (comment : string)
  : ClassReferenceLoaded :=
  match loaded with
  | LoadedClass c =>
      LoadedClass {| cl_localName := cl_localName c; cl_fileName := cl_fileName c;
                     cl_declaration := cl_declaration c; cl_ast := cl_ast c;
                     cl_abstract := cl_abstract c; cl_generics := cl_generics c;
                     cl_comment := Some comment |}
  | LoadedInterface i =>
      LoadedInterface {| il_localName := il_localName i; il_fileName := il_fileName i;
                         il_declaration := il_declaration i; il_ast := il_ast i;
                         il_generics := il_generics i;
                         il_comment := Some comment |}
  end.

(** What is passed where the source expects a class or an interface
    declaration: a node of the parser, or the member of [Object.prototype]
    that a hash has under an inherited name. *)
Inductive Declaration :=
| OfClass (declaration : ClassDeclaration)
| OfInterface (declaration : TSInterfaceDeclaration)
| OfObjectPrototype (name : string).

Definition classDeclarationOf (found : Found ClassDeclaration) : Declaration :=
  match found with
  | Written declaration => OfClass declaration
  | Builtin name => OfObjectPrototype name
  end.

Definition interfaceDeclarationOf (found : Found TSInterfaceDeclaration) : Declaration :=
  match found with
  | Written declaration => OfInterface declaration
  | Builtin name => OfObjectPrototype name
  end.

(** The reference a loaded declaration carries, and its other fields. *)
Definition loadedReference (loaded : ClassReferenceLoaded) : ClassReference :=
  match loaded with
  | LoadedClass c => {| localName := cl_localName c; fileName := cl_fileName c |}
  | LoadedInterface i => {| localName := il_localName i; fileName := il_fileName i |}
  end.

Definition loadedAst (loaded : ClassReferenceLoaded) : AST :=
  match loaded with
  | LoadedClass c => cl_ast c
  | LoadedInterface i => il_ast i
  end.

Definition loadedGenerics (loaded : ClassReferenceLoaded) : GenericTypes :=
  match loaded with
  | LoadedClass c => cl_generics c
  | LoadedInterface i => il_generics i
  end.

Definition loadedComment (loaded : ClassReferenceLoaded) : option string :=
  match loaded with
  | LoadedClass c => cl_comment c
  | LoadedInterface i => il_comment i
  end.

Definition loadedDeclaration (loaded : ClassReferenceLoaded) : Declaration :=
  match loaded with
  | LoadedClass c => classDeclarationOf (cl_declaration c)
  | LoadedInterface i => interfaceDeclarationOf (il_declaration i)
  end.

(** ** The class elements of a file

    The hashes of [getClassElements], each created by [{}].  Objects are
    assigned to all of them but [exportedUnknowns], to which strings are
    assigned: its prototype is never replaced, and it is given by the
    entries of its own. *)

Record ClassElements := {
  exportedClasses : Hash ClassDeclaration;
  exportedInterfaces : Hash TSInterfaceDeclaration;
  exportedImportedElements : Hash ClassReference;
  exportedImportedAll : list string;
  exportedUnknowns : gmap string string;
  declaredClasses : Hash ClassDeclaration;
  declaredInterfaces : Hash TSInterfaceDeclaration;
  importedElements : Hash ClassReference;
}.

Definition noClassElements : ClassElements :=
  {| exportedClasses := ∅; exportedInterfaces := ∅;
     exportedImportedElements := ∅; exportedImportedAll := [];
     exportedUnknowns := ∅; declaredClasses := ∅;
     declaredInterfaces := ∅; importedElements := ∅ |}.

(** ** The collaborators of the loader *)

Record ResolutionContext := {
  parseTypescriptFile : string → Result AST;
}.

(** What the comment loader is given: the loaded reference without the
    statements of its tree. *)
Record CommentSubject := {
  subject_interface : bool;
  subject_localName : string;
  subject_fileName : string;
  subject_declaration : Declaration;
  subject_comments : list Comment;
}.

Record ClassLoader := {
  resolutionContext : ResolutionContext;
  (** [Path.dirname] and [Path.join] of Node *)
  Path_dirname : string → string;
  Path_join : string → string → string;
  (** Modelled from the spec: the class [CommentLoader] is not among the
      sources.  [new CommentLoader({ classLoaded })
        .getCommentDataFromClassOrInterface(classLoaded.declaration)
        .description]: by sections 4.2 and 6 of the specification the
      comment is the documentation comment that the parser attached to the
      tree before the declaration, so the loader is given the comments of the
      tree, the declaration and the names of the loaded reference.  The call
      can throw. *)
  commentDescription : CommentSubject → Result (option string);
}.

(** ** Error messages *)

Definition at_position (fileName : string) (l : SourceLocation) : string :=
  fileName +:+ " on line " +:+ pretty (line (start l)) +:+
  " column " +:+ pretty (column (start l)).

Definition namespacedSuperclassError (fileName : string) (l : SourceLocation) :=
  "Namespaced superclasses are currently not supported: " +:+ at_position fileName l.

Definition superclassTypeError (fileName : string) (l : SourceLocation) :=
  "Could not interpret type of superclass in " +:+ at_position fileName l.

Definition superInterfaceTypeError (fileName : string) (l : SourceLocation) :=
  "Could not interpret type of super interface in " +:+ at_position fileName l.

Definition missingExportedClassNameError (fileName : string) (l : SourceLocation) :=
  "Export parsing failure: missing exported class name in " +:+ at_position fileName l.

Definition couldNotLoadError (considerInterfaces : bool) (classReference : ClassReference) :=
  "Could not load " +:+ (if considerInterfaces then "class or interface" else "class") +:+
  " " +:+ localName classReference +:+ " from " +:+ fileName classReference.

(** ** getSuperClassName, getSuperInterfaceNames *)

Definition isIdentifier (e : Expression) : bool :=
  match e with Identifier _ _ => true | _ => false end.

Definition getSuperClassName (declaration : ClassDeclaration) (fileName : string)
  : Result (option string) :=
  match superClass declaration with
  | None => Return None
  | Some (Identifier name _) => Return (Some name)
  | Some (MemberExpression object property l) =>
      if isIdentifier property && isIdentifier object
      then Throw (namespacedSuperclassError fileName l)
      else Throw (superclassTypeError fileName l)
  | Some (OtherExpression _ l) => Throw (superclassTypeError fileName l)
  end.

Definition superInterfaceName (fileName : string) (extendsExpression : InterfaceHeritage)
  : Result string :=
  match heritage_type extendsExpression, expression extendsExpression with
  | TSInterfaceHeritage, Identifier name _ => Return name
  | _, _ => Throw (superInterfaceTypeError fileName (heritage_loc extendsExpression))
  end.

(** [Array.prototype.map] with a callback that can throw: the first throw
    ends the traversal. *)
Fixpoint mapResult {A B} (f : A → Result B) (l : list A) : Result (list B) :=
  match l with
  | [] => Return []
  | x :: l' => y ← f x; ys ← mapResult f l'; Return (y :: ys)
  end.

Definition getSuperInterfaceNames (declaration : TSInterfaceDeclaration) (fileName : string)
  : Result (list string) :=
  mapResult (superInterfaceName fileName) (default [] (extends declaration)).

(** ** collectGenericTypes *)

Definition typeParameters (classDeclaration : Declaration) : option (list TSTypeParameter) :=
  match classDeclaration with
  | OfClass c => class_typeParameters c
  | OfInterface i => interface_typeParameters i
  | OfObjectPrototype _ => None
  end.

Definition collectGenericTypes (classDeclaration : Declaration) : GenericTypes :=
  match typeParameters classDeclaration with
  | Some params =>
      foldl (λ (genericTypes : GenericTypes) param,
               <[tp_name param := {| type := constraint param |}]> genericTypes)
            ∅ params
  | None => ∅
  end.

(** ** getClassElements *)

Section Elements.
Context (elements : ClassElements).

Definition setExportedClasses m : ClassElements :=
  {| exportedClasses := m; exportedInterfaces := exportedInterfaces elements;
     exportedImportedElements := exportedImportedElements elements;
     exportedImportedAll := exportedImportedAll elements;
     exportedUnknowns := exportedUnknowns elements;
     declaredClasses := declaredClasses elements;
     declaredInterfaces := declaredInterfaces elements;
     importedElements := importedElements elements |}.

Definition setExportedInterfaces m : ClassElements :=
  {| exportedClasses := exportedClasses elements; exportedInterfaces := m;
     exportedImportedElements := exportedImportedElements elements;
     exportedImportedAll := exportedImportedAll elements;
     exportedUnknowns := exportedUnknowns elements;
     declaredClasses := declaredClasses elements;
     declaredInterfaces := declaredInterfaces elements;
     importedElements := importedElements elements |}.

Definition setExportedImportedElements m : ClassElements :=
  {| exportedClasses := exportedClasses elements;
     exportedInterfaces := exportedInterfaces elements;
     exportedImportedElements := m;
     exportedImportedAll := exportedImportedAll elements;
     exportedUnknowns := exportedUnknowns elements;
     declaredClasses := declaredClasses elements;
     declaredInterfaces := declaredInterfaces elements;
     importedElements := importedElements elements |}.

Definition setExportedImportedAll l : ClassElements :=
  {| exportedClasses := exportedClasses elements;
     exportedInterfaces := exportedInterfaces elements;
     exportedImportedElements := exportedImportedElements elements;
     exportedImportedAll := l;
     exportedUnknowns := exportedUnknowns elements;
     declaredClasses := declaredClasses elements;
     declaredInterfaces := declaredInterfaces elements;
     importedElements := importedElements elements |}.

Definition setExportedUnknowns m : ClassElements :=
  {| exportedClasses := exportedClasses elements;
     exportedInterfaces := exportedInterfaces elements;
     exportedImportedElements := exportedImportedElements elements;
     exportedImportedAll := exportedImportedAll elements;
     exportedUnknowns := m;
     declaredClasses := declaredClasses elements;
     declaredInterfaces := declaredInterfaces elements;
     importedElements := importedElements elements |}.

Definition setDeclaredClasses m : ClassElements :=
  {| exportedClasses := exportedClasses elements;
     exportedInterfaces := exportedInterfaces elements;
     exportedImportedElements := exportedImportedElements elements;
     exportedImportedAll := exportedImportedAll elements;
     exportedUnknowns := exportedUnknowns elements;
     declaredClasses := m;
     declaredInterfaces := declaredInterfaces elements;
     importedElements := importedElements elements |}.

Definition setDeclaredInterfaces m : ClassElements :=
  {| exportedClasses := exportedClasses elements;
     exportedInterfaces := exportedInterfaces elements;
     exportedImportedElements := exportedImportedElements elements;
     exportedImportedAll := exportedImportedAll elements;
     exportedUnknowns := exportedUnknowns elements;
     declaredClasses := declaredClasses elements;
     declaredInterfaces := m;
     importedElements := importedElements elements |}.

Definition setImportedElements m : ClassElements :=
  {| exportedClasses := exportedClasses elements;
     exportedInterfaces := exportedInterfaces elements;
     exportedImportedElements := exportedImportedElements elements;
     exportedImportedAll := exportedImportedAll elements;
     exportedUnknowns := exportedUnknowns elements;
     declaredClasses := declaredClasses elements;
     declaredInterfaces := declaredInterfaces elements;
     importedElements := m |}.
End Elements.

(** [source && source.type === Literal && typeof source.value === 'string'] *)
Definition stringSource (source : option SourceNode) : option string :=
  match source with
  | Some (StringLiteral value) => Some value
  | _ => None
  end.

Section GetClassElements.
Context (this : ClassLoader).

(** [Path.join(Path.dirname(fileName), statement.source.value)] *)
Definition sourcePath (fileName value : string) : string :=
  Path_join this (Path_dirname this fileName) value.

(** The body of [for (const statement of ast.body)]. *)
Definition classifyStatement (fileName : string) (elements : ClassElements)
    (statement : Statement) : Result ClassElements :=
  match statement with
  | ExportNamedDeclaration (Some (ExportedClass declaration)) _ _ =>
      match class_id declaration with
      | None => Throw (missingExportedClassNameError fileName (class_loc declaration))
      | Some name =>
          Return (setExportedClasses elements
                    (<[name := declaration]> (exportedClasses elements)))
      end
  | ExportNamedDeclaration (Some (ExportedInterface declaration)) _ _ =>
      Return (setExportedInterfaces elements
                (<[interface_id declaration := declaration]> (exportedInterfaces elements)))
  | ExportNamedDeclaration _ source specifiers =>
      match stringSource source with
      | Some value =>
          Return (setExportedImportedElements elements
            (foldl (λ (m : Hash ClassReference) specifier,
                      <[es_exported specifier :=
                          {| localName := es_local specifier;
                             fileName := sourcePath fileName value |}]> m)
                   (exportedImportedElements elements) specifiers))
      | None =>
          Return (setExportedUnknowns elements
            (foldl (λ m specifier,
                      assignPrimitive (es_exported specifier) (es_local specifier) m)
                   (exportedUnknowns elements) specifiers))
      end
  | ExportAllDeclaration source =>
      match stringSource source with
      | Some value =>
          Return (setExportedImportedAll elements
                    (exportedImportedAll elements ++ [sourcePath fileName value]))
      | None => Return elements
      end
  | ClassDeclarationStatement declaration =>
      match class_id declaration with
      | Some name =>
          Return (setDeclaredClasses elements
                    (<[name := declaration]> (declaredClasses elements)))
      | None => Return elements
      end
  | TSInterfaceDeclarationStatement declaration =>
      Return (setDeclaredInterfaces elements
                (<[interface_id declaration := declaration]> (declaredInterfaces elements)))
  | ImportDeclaration source specifiers =>
      match stringSource (Some source) with
      | Some value =>
          Return (setImportedElements elements
            (foldl (λ (m : Hash ClassReference) specifier,
                      match specifier with
                      | ImportSpecifier local imported =>
                          <[local := {| localName := imported;
                                        fileName := sourcePath fileName value |}]> m
                      | _ => m
                      end)
                   (importedElements elements) specifiers))
      | None => Return elements
      end
  | OtherStatement => Return elements
  end.

Fixpoint classifyStatements (fileName : string) (elements : ClassElements)
    (statements : list Statement) : Result ClassElements :=
  match statements with
  | [] => Return elements
  | statement :: rest =>
      elements' ← classifyStatement fileName elements statement;
      classifyStatements fileName elements' rest
  end.

Definition getClassElements (fileName : string) (ast : AST) : Result ClassElements :=
  classifyStatements fileName noClassElements (body ast).

(** ** enhanceLoadedWithComment *)

Definition commentSubject (classLoaded : ClassReferenceLoaded) : CommentSubject :=
  {| subject_interface := isInterface classLoaded;
     subject_localName := localName (loadedReference classLoaded);
     subject_fileName := fileName (loadedReference classLoaded);
     subject_declaration := loadedDeclaration classLoaded;
     subject_comments := comments (loadedAst classLoaded) |}.

(** The comment loader can throw; [if (commentData.description)] passes for
    a description that is a string other than the empty one. *)
Definition enhanceLoadedWithComment (classLoaded : ClassReferenceLoaded)
  : Result ClassReferenceLoaded :=
  description ← commentDescription this (commentSubject classLoaded);
  match description with
  | Some description =>
      if decide (description = "") then Return classLoaded
      else Return (withComment classLoaded description)
  | None => Return classLoaded
  end.

(** [declaration.abstract]: a member of [Object.prototype] has no such
    property. *)
Definition abstractOf (declaration : Found ClassDeclaration) : option bool :=
  match declaration with
  | Written declaration => abstract declaration
  | Builtin _ => None
  end.

(** The [return] of lines 82-89 and 95-102, for the value [declaration]
    that the hash has under the name. *)
Definition loadedClass (classReference : ClassReference)
    (declaration : Found ClassDeclaration) (ast : AST)
  : Result ClassReferenceLoaded :=
  enhanceLoadedWithComment (LoadedClass
    {| cl_localName := localName classReference;
       cl_fileName := fileName classReference;
       cl_declaration := declaration;
       cl_ast := ast;
       cl_abstract := abstractOf declaration;
       cl_generics := collectGenericTypes (classDeclarationOf declaration);
       cl_comment := None |}).

(** The [return] of lines 110-116 and 122-128. *)
Definition loadedInterface (classReference : ClassReference)
    (declaration : Found TSInterfaceDeclaration) (ast : AST)
  : Result ClassReferenceLoaded :=
  enhanceLoadedWithComment (LoadedInterface
    {| il_localName := localName classReference;
       il_fileName := fileName classReference;
       il_declaration := declaration;
       il_ast := ast;
       il_generics := collectGenericTypes (interfaceDeclarationOf declaration);
       il_comment := None |}).

(** ** loadClassDeclaration *)

(** [for (const subFile of exportedImportedAll) { try { return await ... }
    catch {} }] followed by the final [throw]: a target that throws is
    skipped, a target that returns ends the loop, and a target whose call
    has not settled, or has left the embedding, leaves the whole call so. *)
Fixpoint tryExportAll {A} (attempt : string → option (Result A))
    (targets : list string) (exhausted : string) : option (Result A) :=
  match targets with
  | [] => Some (Throw exhausted)
  | subFile :: rest =>
      match attempt subFile with
      | Some (Return loaded) => Some (Return loaded)
      | Some (Throw _) => tryExportAll attempt rest exhausted
      | Some Beyond => Some Beyond
      | None => None
      end
  end.

Fixpoint loadClassDeclaration (fuel : nat) (classReference : ClassReference)
    (considerInterfaces : bool) : option (Result ClassReferenceLoaded) :=
  match fuel with
  | 0 => None
  | S fuel' =>
    match parseTypescriptFile (resolutionContext this) (fileName classReference) with
    | Throw m => Some (Throw m)
    | Beyond => Some Beyond
    | Return ast =>
    match getClassElements (fileName classReference) ast with
    | Throw m => Some (Throw m)
    | Beyond => Some Beyond
    | Return elements =>
    match member (exportedClasses elements) (localName classReference) with
    | Present declaration => Some (loadedClass classReference declaration ast)
    | Unknown => Some Beyond
    | Missing =>
    match member (declaredClasses elements) (localName classReference) with
    | Present declaration => Some (loadedClass classReference declaration ast)
    | Unknown => Some Beyond
    | Missing =>
    match (if considerInterfaces
           then member (exportedInterfaces elements) (localName classReference)
           else Missing) with
    | Present declaration => Some (loadedInterface classReference declaration ast)
    | Unknown => Some Beyond
    | Missing =>
    match (if considerInterfaces
           then member (declaredInterfaces elements) (localName classReference)
           else Missing) with
    | Present declaration => Some (loadedInterface classReference declaration ast)
    | Unknown => Some Beyond
    | Missing =>
    match member (importedElements elements) (localName classReference) with
    | Present (Written target) => loadClassDeclaration fuel' target considerInterfaces
    | Present (Builtin _) | Unknown => Some Beyond
    | Missing =>
    match member (exportedImportedElements elements) (localName classReference) with
    | Present (Written target) => loadClassDeclaration fuel' target considerInterfaces
    | Present (Builtin _) | Unknown => Some Beyond
    | Missing =>
        tryExportAll
          (λ subFile, loadClassDeclaration fuel'
                        {| localName := localName classReference; fileName := subFile |}
                        considerInterfaces)
          (exportedImportedAll elements)
          (couldNotLoadError considerInterfaces classReference)
    end end end end end end end end
  end.

(** [loadClassElements] *)
Definition loadClassElements (fileName : string) : Result ClassElements :=
  ast ← parseTypescriptFile (resolutionContext this) fileName;
  getClassElements fileName ast.
End GetClassElements.

(** ** The resolution order, as a relation

    The order in which a reference is resolved, written as the rules of a
    derivation rather than as a program: one rule for each of the places a
    name is looked for, each rule requiring that the places before it do not
    have the name.  [resolve this ci ref r] reads: resolving [ref] settles
    with [r]; [resolveExportAll this ci ref targets r] reads: trying the
    wildcard targets [targets] one after the other settles with [r].

    A name is "in" an index as the loader tests it, with [in]: [member]. *)

Definition notDeclared (considerInterfaces : bool) (elements : ClassElements)
    (name : string) : Prop :=
  member (exportedClasses elements) name = Missing ∧
  member (declaredClasses elements) name = Missing ∧
  (considerInterfaces = true →
     member (exportedInterfaces elements) name = Missing ∧
     member (declaredInterfaces elements) name = Missing).

Definition notBound (elements : ClassElements) (name : string) : Prop :=
  member (importedElements elements) name = Missing ∧
  member (exportedImportedElements elements) name = Missing.

(** The file of [ref] parses to [ast] and its class elements are [elements]. *)
Definition fileLoads (this : ClassLoader) (file : string) (ast : AST)
    (elements : ClassElements) : Prop :=
  parseTypescriptFile (resolutionContext this) file = Return ast ∧
  getClassElements this file ast = Return elements.

(** What a call settles with when a collaborator has not returned. *)
Definition notReturned {A B} (r : Result A) : option (Result B) :=
  match r with
  | Return _ => None
  | Throw m => Some (Throw m)
  | Beyond => Some Beyond
  end.

(** What the loader makes of an index that has the name. *)
Definition found {D L} (load : Found D → Result L) (m : Member D) : option (Result L) :=
  match m with
  | Present declaration => Some (load declaration)
  | Unknown => Some Beyond
  | Missing => None
  end.

(** A hash of bindings has the name, but not by an assignment of the
    extraction. *)
Definition unreadable (m : Member ClassReference) : Prop :=
  m = Unknown ∨ ∃ name, m = Present (Builtin name).

Inductive resolve (this : ClassLoader) (ci : bool)
  : ClassReference → Result ClassReferenceLoaded → Prop :=
| resolve_parse_error ref r :
    notReturned (parseTypescriptFile (resolutionContext this) (fileName ref)) = Some r →
    resolve this ci ref r
| resolve_elements_error ref ast r :
    parseTypescriptFile (resolutionContext this) (fileName ref) = Return ast →
    notReturned (getClassElements this (fileName ref) ast) = Some r →
    resolve this ci ref r
| resolve_exportedClass ref ast elements r :
    fileLoads this (fileName ref) ast elements →
    found (λ declaration, loadedClass this ref declaration ast)
          (member (exportedClasses elements) (localName ref)) = Some r →
    resolve this ci ref r
| resolve_declaredClass ref ast elements r :
    fileLoads this (fileName ref) ast elements →
    member (exportedClasses elements) (localName ref) = Missing →
    found (λ declaration, loadedClass this ref declaration ast)
          (member (declaredClasses elements) (localName ref)) = Some r →
    resolve this ci ref r
| resolve_exportedInterface ref ast elements r :
    fileLoads this (fileName ref) ast elements →
    ci = true →
    member (exportedClasses elements) (localName ref) = Missing →
    member (declaredClasses elements) (localName ref) = Missing →
    found (λ declaration, loadedInterface this ref declaration ast)
          (member (exportedInterfaces elements) (localName ref)) = Some r →
    resolve this ci ref r
| resolve_declaredInterface ref ast elements r :
    fileLoads this (fileName ref) ast elements →
    ci = true →
    member (exportedClasses elements) (localName ref) = Missing →
    member (declaredClasses elements) (localName ref) = Missing →
    member (exportedInterfaces elements) (localName ref) = Missing →
    found (λ declaration, loadedInterface this ref declaration ast)
          (member (declaredInterfaces elements) (localName ref)) = Some r →
    resolve this ci ref r
| resolve_imported ref ast elements target r :
    fileLoads this (fileName ref) ast elements →
    notDeclared ci elements (localName ref) →
    importedElements elements !! localName ref = Some target →
    resolve this ci target r →
    resolve this ci ref r
| resolve_imported_unreadable ref ast elements :
    fileLoads this (fileName ref) ast elements →
    notDeclared ci elements (localName ref) →
    unreadable (member (importedElements elements) (localName ref)) →
    resolve this ci ref Beyond
| resolve_exportedImported ref ast elements target r :
    fileLoads this (fileName ref) ast elements →
    notDeclared ci elements (localName ref) →
    member (importedElements elements) (localName ref) = Missing →
    exportedImportedElements elements !! localName ref = Some target →
    resolve this ci target r →
    resolve this ci ref r
| resolve_exportedImported_unreadable ref ast elements :
    fileLoads this (fileName ref) ast elements →
    notDeclared ci elements (localName ref) →
    member (importedElements elements) (localName ref) = Missing →
    unreadable (member (exportedImportedElements elements) (localName ref)) →
    resolve this ci ref Beyond
| resolve_exportedAll ref ast elements r :
    fileLoads this (fileName ref) ast elements →
    notDeclared ci elements (localName ref) →
    notBound elements (localName ref) →
    resolveExportAll this ci ref (exportedImportedAll elements) r →
    resolve this ci ref r
with resolveExportAll (this : ClassLoader) (ci : bool)
  : ClassReference → list string → Result ClassReferenceLoaded → Prop :=
| exportAll_exhausted ref :
    resolveExportAll this ci ref [] (Throw (couldNotLoadError ci ref))
| exportAll_found ref subFile rest loaded :
    resolve this ci {| localName := localName ref; fileName := subFile |}
            (Return loaded) →
    resolveExportAll this ci ref (subFile :: rest) (Return loaded)
| exportAll_beyond ref subFile rest :
    resolve this ci {| localName := localName ref; fileName := subFile |} Beyond →
    resolveExportAll this ci ref (subFile :: rest) Beyond
| exportAll_skip ref subFile rest m r :
    resolve this ci {| localName := localName ref; fileName := subFile |}
            (Throw m) →
    resolveExportAll this ci ref rest r →
    resolveExportAll this ci ref (subFile :: rest) r.

Scheme resolve_mut := Minimality for resolve Sort Prop
  with resolveExportAll_mut := Minimality for resolveExportAll Sort Prop.

(** ** Settled calls and indirections *)

(** The call [loadClassDeclaration(ref, ci)] settles with [r]: some budget is
    enough for it to return or to throw. *)
Definition settles (this : ClassLoader) (ci : bool) (ref : ClassReference)
    (r : Result ClassReferenceLoaded) : Prop :=
  ∃ fuel, loadClassDeclaration this fuel ref ci = Some r.

(** Resolving [name] in the wildcard target [subFile] throws. *)
Definition throwsIn (this : ClassLoader) (ci : bool) (name subFile : string) : Prop :=
  ∃ m, settles this ci {| localName := name; fileName := subFile |} (Throw m).

(** One hop of the resolver: the loader finds the name in no index of
    declarations of the file of [ref], and
    [target] is where the loader looks next: the import binding of the name,
    or else its re-export binding, or else a wildcard target all of whose
    predecessors throw. *)
Inductive indirection (this : ClassLoader) (ci : bool)
  : ClassReference → ClassReference → Prop :=
| via_importedElements ref ast elements target :
    fileLoads this (fileName ref) ast elements →
    notDeclared ci elements (localName ref) →
    importedElements elements !! localName ref = Some target →
    indirection this ci ref target
| via_exportedImportedElements ref ast elements target :
    fileLoads this (fileName ref) ast elements →
    notDeclared ci elements (localName ref) →
    member (importedElements elements) (localName ref) = Missing →
    exportedImportedElements elements !! localName ref = Some target →
    indirection this ci ref target
| via_exportedImportedAll ref ast elements before subFile after :
    fileLoads this (fileName ref) ast elements →
    notDeclared ci elements (localName ref) →
    notBound elements (localName ref) →
    exportedImportedAll elements = (before ++ subFile :: after)%list →
    Forall (throwsIn this ci (localName ref)) before →
    indirection this ci ref {| localName := localName ref; fileName := subFile |}.

(** The sources of the [export * from "b"] statements, in the order of the
    statements. *)
Definition wildcardSources (statements : list Statement) : list string :=
  omap (λ statement,
          match statement with
          | ExportAllDeclaration source => stringSource source
          | _ => None
          end) statements.

(** ** Statements the resolver has no use for *)

(** The statements that reach the last branch of the export case of
    [getClassElements], [export { A as B }]: an [ExportNamedDeclaration] that
    declares neither a class nor an interface and has no string source. *)
Definition unknownExport (statement : Statement) : bool :=
  match statement with
  | ExportNamedDeclaration (Some (ExportedClass _)) _ _
  | ExportNamedDeclaration (Some (ExportedInterface _)) _ _ => false
  | ExportNamedDeclaration _ source _ =>
      match stringSource source with
      | Some _ => false
      | None => true
      end
  | _ => false
  end.

(** The loader whose parser drops these statements from every file. *)
Definition withoutUnknownExports (this : ClassLoader) : ClassLoader :=
  {| resolutionContext :=
       {| parseTypescriptFile := λ fileName,
            ast ← parseTypescriptFile (resolutionContext this) fileName;
            Return {| body := filter (λ statement, ¬ unknownExport statement) (body ast);
                      comments := comments ast |} |};
     Path_dirname := Path_dirname this;
     Path_join := Path_join this;
     commentDescription := commentDescription this |}.

(** Two loaded references with the same tag, names, declaration, abstract
    flag, generics and comment; the statements of the tree are left
    aside. *)
Definition sameDeclaration (loaded loaded' : ClassReferenceLoaded) : Prop :=
  match loaded, loaded' with
  | LoadedClass c, LoadedClass c' =>
      cl_localName c = cl_localName c' ∧ cl_fileName c = cl_fileName c' ∧
      cl_declaration c = cl_declaration c' ∧ cl_abstract c = cl_abstract c' ∧
      cl_generics c = cl_generics c' ∧ cl_comment c = cl_comment c'
  | LoadedInterface i, LoadedInterface i' =>
      il_localName i = il_localName i' ∧ il_fileName i = il_fileName i' ∧
      il_declaration i = il_declaration i' ∧ il_generics i = il_generics i' ∧
      il_comment i = il_comment i'
  | _, _ => False
  end.

(** Two calls with the same outcome: neither has settled within the budget,
    both throw the same error, both return the same declaration, or both
    leave the embedding. *)
Definition sameOutcome (o o' : option (Result ClassReferenceLoaded)) : Prop :=
  match o, o' with
  | None, None => True
  | Some (Throw m), Some (Throw m') => m = m'
  | Some Beyond, Some Beyond => True
  | Some (Return loaded), Some (Return loaded') => sameDeclaration loaded loaded'
  | _, _ => False
  end.

(** Two extraction results that differ at most in [exportedUnknowns]. *)
Definition sameIndexes (elements elements' : ClassElements) : Prop :=
  exportedClasses elements = exportedClasses elements' ∧
  exportedInterfaces elements = exportedInterfaces elements' ∧
  exportedImportedElements elements = exportedImportedElements elements' ∧
  exportedImportedAll elements = exportedImportedAll elements' ∧
  declaredClasses elements = declaredClasses elements' ∧
  declaredInterfaces elements = declaredInterfaces elements' ∧
  importedElements elements = importedElements elements'.

Definition sameExtraction (r r' : Result ClassElements) : Prop :=
  match r, r' with
  | Return elements, Return elements' => sameIndexes elements elements'
  | Throw m, Throw m' => m = m'
  | Beyond, Beyond => True
  | _, _ => False
  end.

(** [import { A as B } from "b"], as opposed to [import B from "b"] and
    [import * as B from "b"]. *)
Definition isImportSpecifier (specifier : ImportClause) : bool :=
  match specifier with
  | ImportSpecifier _ _ => true
  | _ => false
  end.

Definition namedImportsOnly (statement : Statement) : Statement :=
  match statement with
  | ImportDeclaration source specifiers =>
      ImportDeclaration source (filter (λ specifier, isImportSpecifier specifier) specifiers)
  | _ => statement
  end.

(** ** Statements of the properties

    What is claimed of [collectGenericTypes]: one entry for each declared
    type parameter, under the parameter's name, whose [type] is absent
    exactly when the parameter has no constraint. *)

Definition declaredTypeParameters (classDeclaration : Declaration) : list TSTypeParameter :=
  default [] (typeParameters classDeclaration).

Definition oneEntryPerTypeParameter (classDeclaration : Declaration) : Prop :=
  size (entries (collectGenericTypes classDeclaration)) =
    length (declaredTypeParameters classDeclaration) ∧
  ∀ param, param ∈ declaredTypeParameters classDeclaration →
    ∃ entry,
      entries (collectGenericTypes classDeclaration) !! tp_name param = Some entry ∧
      (type entry = None ↔ constraint param = None).

(** A heritage entry of the form [interface A extends B]. *)
Definition bareHeritage (entry : InterfaceHeritage) : option string :=
  match heritage_type entry, expression entry with
  | TSInterfaceHeritage, Identifier name _ => Some name
  | _, _ => None
  end.

(** ** Further statements about the extraction and the resolution *)

(** The declarations a statement contributes to each index. *)
Definition exportedClassOf (statement : Statement) : option ClassDeclaration :=
  match statement with
  | ExportNamedDeclaration (Some (ExportedClass declaration)) _ _ => Some declaration
  | _ => None
  end.

Definition exportedInterfaceOf (statement : Statement) : option TSInterfaceDeclaration :=
  match statement with
  | ExportNamedDeclaration (Some (ExportedInterface declaration)) _ _ => Some declaration
  | _ => None
  end.

Definition declaredClassOf (statement : Statement) : option ClassDeclaration :=
  match statement with
  | ClassDeclarationStatement declaration => Some declaration
  | _ => None
  end.

Definition declaredInterfaceOf (statement : Statement) : option TSInterfaceDeclaration :=
  match statement with
  | TSInterfaceDeclarationStatement declaration => Some declaration
  | _ => None
  end.

(** [index[name] = declaration] for a declaration that has a name. *)
Definition recordNamed {D} (key : D → option string) (index : Hash D)
    (declaration : D) : Hash D :=
  match key declaration with
  | Some name => <[name := declaration]> index
  | None => index
  end.

(** The last declaration of [name] among [declarations]. *)
Definition lastNamed {D} (key : D → option string) (name : string)
    (declarations : list D) : option D :=
  last (filter (λ declaration, key declaration = Some name) declarations).

(** What the loader's test [name in index] and its read [index[name]] find
    in an index made from [declarations]: the last declaration of the name;
    failing that, whatever the last declaration named [__proto__], which the
    assignment has made the prototype of the index, has under the name; and
    failing that, the member of [Object.prototype] of that name. *)
Definition memberOfLast {D} (key : D → option string) (declarations : list D)
    (name : string) : Member D :=
  match lastNamed key name declarations with
  | Some declaration => Present (Written declaration)
  | None =>
      match lastNamed key "__proto__" declarations with
      | Some _ => Unknown
      | None =>
          if decide (name ∈ objectPrototypeMembers) then Present (Builtin name)
          else Missing
      end
  end.

(** An exported class without a name. *)
Definition namelessExport (statement : Statement) : option ClassDeclaration :=
  match exportedClassOf statement with
  | Some declaration =>
      match class_id declaration with
      | None => Some declaration
      | Some _ => None
      end
  | None => None
  end.

(** The first exported class without a name, if the file has one. *)
Definition firstNamelessExport (statements : list Statement) : option ClassDeclaration :=
  head (omap namelessExport statements).

(** One hop through a binding of the name: its import binding, or else its
    re-export binding.  The wildcard targets are not bindings. *)
Inductive bound (this : ClassLoader) (ci : bool)
  : ClassReference → ClassReference → Prop :=
| bound_imported ref ast elements target :
    fileLoads this (fileName ref) ast elements →
    notDeclared ci elements (localName ref) →
    importedElements elements !! localName ref = Some target →
    bound this ci ref target
| bound_exportedImported ref ast elements target :
    fileLoads this (fileName ref) ast elements →
    notDeclared ci elements (localName ref) →
    member (importedElements elements) (localName ref) = Missing →
    exportedImportedElements elements !! localName ref = Some target →
    bound this ci ref target.

(** The statements that declare an interface. *)
Definition declaresInterface (statement : Statement) : bool :=
  match statement with
  | ExportNamedDeclaration (Some (ExportedInterface _)) _ _
  | TSInterfaceDeclarationStatement _ => true
  | _ => false
  end.

(** The loader whose parser drops the interface declarations of every file. *)
Definition withoutInterfaces (this : ClassLoader) : ClassLoader :=
  {| resolutionContext :=
       {| parseTypescriptFile := λ fileName,
            ast ← parseTypescriptFile (resolutionContext this) fileName;
            Return {| body := filter (λ statement, ¬ declaresInterface statement) (body ast);
                      comments := comments ast |} |};
     Path_dirname := Path_dirname this;
     Path_join := Path_join this;
     commentDescription := commentDescription this |}.

(** Two extraction results that differ at most in their interfaces. *)
Definition sameClasses (elements elements' : ClassElements) : Prop :=
  exportedClasses elements = exportedClasses elements' ∧
  exportedImportedElements elements = exportedImportedElements elements' ∧
  exportedImportedAll elements = exportedImportedAll elements' ∧
  exportedUnknowns elements = exportedUnknowns elements' ∧
  declaredClasses elements = declaredClasses elements' ∧
  importedElements elements = importedElements elements'.

Definition sameClassExtraction (r r' : Result ClassElements) : Prop :=
  match r, r' with
  | Return elements, Return elements' => sameClasses elements elements'
  | Throw m, Throw m' => m = m'
  | Beyond, Beyond => True
  | _, _ => False
  end.

(** ** The command line (bin/componentsjs-generator) and Generate.js *)

(** The value of [ignoreClasses]: with the option [-i],
    [JSON.parse(...).reduce((acc, entry) => { acc[entry] = true; return acc; }, {})],
    an object created by [{}] to which booleans are assigned; without the
    option, the empty array [[]]. *)
Inductive IgnoreClasses :=
| IgnoreHash (own : gmap string bool)
| IgnoreArray.

Definition ignoreClasses (entries : option (list string)) : IgnoreClasses :=
  match entries with
  | Some entries =>
      IgnoreHash (foldl (λ acc entry, assignPrimitive entry true acc) ∅ entries)
  | None => IgnoreArray
  end.

(** The loop of [generateComponents] that adds the context files of the
    superclass's component to [newConfig["@context"]]:
    [if (!contexts.includes(contextFile)) contexts.push(contextFile)]. *)
Definition addContexts (contexts contextFiles : list string) : list string :=
  foldl (λ (contexts : list string) (contextFile : string),
           if decide (contextFile ∈ contexts) then contexts
           else (contexts ++ [contextFile])%list)
        contexts contextFiles.


(** ** Fixtures *)

Definition origin : SourceLocation := {| start := {| line := 1; column := 0 |} |}.

(** [class X<T extends Foo, T> {}] *)
Definition duplicatedTypeParameter : Declaration :=
  OfClass {| class_id := Some "X"; superClass := None; abstract := None;
             class_typeParameters :=
               Some [ {| tp_name := "T"; constraint := Some (TSTypeReference "Foo") |};
                      {| tp_name := "T"; constraint := None |} ];
             class_loc := origin |}.

(** [class X<T extends Foo, U> {}] *)
Definition twoTypeParameters : Declaration :=
  OfClass {| class_id := Some "X"; superClass := None; abstract := None;
             class_typeParameters :=
               Some [ {| tp_name := "T"; constraint := Some (TSTypeReference "Foo") |};
                      {| tp_name := "U"; constraint := None |} ];
             class_loc := origin |}.

(** A package whose files lie in one directory.  A file is named without
    its extension, as the loader does, and a module specifier [./b] names
    the file [b]. *)
Definition flatJoin (dir source : string) : string :=
  match source with
  | String "."%char (String "/"%char rest) => rest
  | _ => source
  end.

(** A comment loader that finds no comment on a declaration of the parser
    and throws on anything else, as a loader does that reads the position
    of the node it is given. *)
Definition nodesOnly (subject : CommentSubject) : Result (option string) :=
  match subject_declaration subject with
  | OfObjectPrototype _ =>
      Throw "TypeError: Cannot read properties of undefined (reading '0')"
  | _ => Return None
  end.

Definition package (files : gmap string AST) : ClassLoader :=
  {| resolutionContext :=
       {| parseTypescriptFile := λ fileName,
            match files !! fileName with
            | Some ast => Return ast
            | None => Throw ("ENOENT: no such file or directory, open " +:+ fileName)
            end |};
     Path_dirname := λ _, ".";
     Path_join := flatJoin;
     commentDescription := nodesOnly |}.

Definition sourceFile (statements : list Statement) : AST :=
  {| body := statements; comments := [] |}.

Definition exportAllFrom (source : string) : Statement :=
  ExportAllDeclaration (Some (StringLiteral source)).

(** [export abstract class Y<T extends Foo> {}] *)
Definition classY : ClassDeclaration :=
  {| class_id := Some "Y"; superClass := None; abstract := Some true;
     class_typeParameters :=
       Some [ {| tp_name := "T"; constraint := Some (TSTypeReference "Foo") |} ];
     class_loc := origin |}.

(** [export class Y {}] *)
Definition plainY : ClassDeclaration :=
  {| class_id := Some "Y"; superClass := None; abstract := None;
     class_typeParameters := None; class_loc := origin |}.

(** [export class {}], which only a malformed tree can hold *)
Definition namelessClass : ClassDeclaration :=
  {| class_id := None; superClass := None; abstract := None;
     class_typeParameters := None;
     class_loc := {| start := {| line := 3; column := 7 |} |} |}.

(** [export class __proto__ {}] *)
Definition classProto : ClassDeclaration :=
  {| class_id := Some "__proto__"; superClass := None; abstract := None;
     class_typeParameters := None; class_loc := origin |}.

Definition fixture : ClassLoader := package (list_to_map [
  (* export * from './empty'; export * from './mid' *)
  ("index", sourceFile [exportAllFrom "./empty"; exportAllFrom "./mid"]);
  ("empty", sourceFile []);
  (* import { Y as X } from './impl' *)
  ("mid", sourceFile [ImportDeclaration (StringLiteral "./impl") [ImportSpecifier "X" "Y"]]);
  (* export { Y } from './core' *)
  ("impl", sourceFile [ExportNamedDeclaration None (Some (StringLiteral "./core"))
                         [{| es_local := "Y"; es_exported := "Y" |}]]);
  ("core", sourceFile [ExportNamedDeclaration (Some (ExportedClass classY)) None []]);
  (* export * from './loopB' and export * from './loopA' *)
  ("loopA", sourceFile [exportAllFrom "./loopB"]);
  ("loopB", sourceFile [exportAllFrom "./loopA"]);
  (* export * from './empty' *)
  ("dead", sourceFile [exportAllFrom "./empty"]);
  (* import Y from './core'; import * as ns from './core' *)
  ("defaulted", sourceFile [ImportDeclaration (StringLiteral "./core")
                              [ImportDefaultSpecifier "Y"];
                            ImportDeclaration (StringLiteral "./core")
                              [ImportNamespaceSpecifier "ns"]]);
  ("broken", sourceFile [ExportNamedDeclaration (Some (ExportedClass namelessClass))
                           None []]);
  (* export * from './broken'; export * from './core' *)
  ("overBroken", sourceFile [exportAllFrom "./broken"; exportAllFrom "./core"]);
  (* import { Y as A } from './core'; export { A as B } *)
  ("aliased", sourceFile [ImportDeclaration (StringLiteral "./core")
                            [ImportSpecifier "A" "Y"];
                          ExportNamedDeclaration None None
                            [{| es_local := "A"; es_exported := "B" |}]]);
  (* export class __proto__ {} *)
  ("proto", sourceFile [ExportNamedDeclaration (Some (ExportedClass classProto)) None []])
]).

Definition classYLoaded : ClassReferenceLoaded :=
  LoadedClass
    {| cl_localName := "Y"; cl_fileName := "core"; cl_declaration := Written classY;
       cl_ast := sourceFile [ExportNamedDeclaration (Some (ExportedClass classY)) None []];
       cl_abstract := Some true;
       cl_generics := {[ "T" := {| type := Some (TSTypeReference "Foo") |} ]};
       cl_comment := None |}.

(** A second package: [app] imports [Missing] from [lib] under the name [M],
    [lib] is empty; [stuck] re-exports everything of the cyclic [loopA] and
    then of [core]; [twice] exports two classes [Y]. *)
Definition fixture2 : ClassLoader := package (list_to_map [
  (* import { Missing as M } from './lib' *)
  ("app", sourceFile [ImportDeclaration (StringLiteral "./lib")
                        [ImportSpecifier "M" "Missing"]]);
  ("lib", sourceFile []);
  ("loopA", sourceFile [exportAllFrom "./loopB"]);
  ("loopB", sourceFile [exportAllFrom "./loopA"]);
  ("core", sourceFile [ExportNamedDeclaration (Some (ExportedClass classY)) None []]);
  (* export * from './loopA'; export * from './core' *)
  ("stuck", sourceFile [exportAllFrom "./loopA"; exportAllFrom "./core"]);
  (* export class Y {}; export abstract class Y<T extends Foo> {} *)
  ("twice", sourceFile [ExportNamedDeclaration (Some (ExportedClass plainY)) None [];
                        ExportNamedDeclaration (Some (ExportedClass classY)) None []])
]).

(** * Properties *)

Close Scope string_scope.

(** ** Hashes *)

Lemma hash_lookup_insert_eq {V} (o : Hash V) k v : <[k := v]> o !! k = Some v.
Proof.
  unfold lookup, Hash_lookup, insert, Hash_insert.
  destruct (decide (k = "__proto__"%string)); simpl; [done|].
  apply lookup_insert_eq.
Qed.

Lemma hash_lookup_insert_ne {V} (o : Hash V) k k' v :
  k ≠ k' → <[k := v]> o !! k' = o !! k'.
Proof.
  intros Hne. unfold lookup, Hash_lookup, insert, Hash_insert.
  destruct (decide (k = "__proto__"%string)) as [->|Hk],
           (decide (k' = "__proto__"%string)) as [->|Hk']; simpl; try done.
  by apply lookup_insert_ne.
Qed.

Lemma hash_lookup_empty {V} k : (∅ : Hash V) !! k = None.
Proof.
  unfold lookup, Hash_lookup. destruct (decide _); [done|]. apply lookup_empty.
Qed.

(** A name that the extraction has assigned is found with what was
    assigned. *)
Lemma member_Written {V} (o : Hash V) k v :
  member o k = Present (Written v) ↔ o !! k = Some v.
Proof.
  unfold member. split.
  - destruct (o !! k) as [v'|]; [by intros [= ->]|].
    destruct (prototype o); [done|]. by destruct (decide _).
  - by intros ->.
Qed.

(** A name that is not in a hash has not been assigned, is no member of
    [Object.prototype], and the hash still has [Object.prototype] as its
    prototype. *)
Lemma member_Missing {V} (o : Hash V) k :
  member o k = Missing ↔
  o !! k = None ∧ prototype o = None ∧ k ∉ objectPrototypeMembers.
Proof.
  unfold member. split.
  - destruct (o !! k) as [v'|]; [done|].
    destruct (prototype o); [done|]. by destruct (decide _).
  - intros (-> & -> & Hk). by rewrite decide_False.
Qed.

Lemma member_empty {V} k :
  member (∅ : Hash V) k =
    if decide (k ∈ objectPrototypeMembers) then Present (Builtin k) else Missing.
Proof. unfold member. by rewrite hash_lookup_empty. Qed.

(** ** The budget *)

Section Budget.
Context (this : ClassLoader).

Lemma tryExportAll_mono {A} (attempt attempt' : string → option (Result A))
    targets exhausted r :
  (∀ subFile r', attempt subFile = Some r' → attempt' subFile = Some r') →
  tryExportAll attempt targets exhausted = Some r →
  tryExportAll attempt' targets exhausted = Some r.
Proof.
  intros Hle. induction targets as [|subFile rest IH]; simpl; [done|].
  destruct (attempt subFile) as [[loaded|m|]|] eqn:E; [| | |done].
  - rewrite (Hle _ _ E). done.
  - rewrite (Hle _ _ E). exact IH.
  - rewrite (Hle _ _ E). done.
Qed.

(** A call that settles within a budget settles the same way within any
    larger one. *)
Lemma loadClassDeclaration_mono (fuel fuel' : nat) ref ci r :
  loadClassDeclaration this fuel ref ci = Some r →
  fuel ≤ fuel' →
  loadClassDeclaration this fuel' ref ci = Some r.
Proof.
  revert fuel' ref r.
  induction fuel as [|fuel IH]; intros fuel' ref r; [done|].
  destruct fuel' as [|fuel']; [lia|]. intros H Hle.
  assert (fuel ≤ fuel') as Hle' by lia.
  simpl in *.
  repeat case_match; try done; eauto.
  all: try (eapply tryExportAll_mono; [|exact H]; intros subFile r' Hr'; eauto).
Qed.

(** Past the declarations of the file itself, a call is the lookup of the
    import bindings, then of the re-export bindings, then the loop over
    the wildcard targets. *)
Lemma loadClassDeclaration_indirect (fuel : nat) ref ci ast elements :
  fileLoads this (fileName ref) ast elements →
  notDeclared ci elements (localName ref) →
  loadClassDeclaration this (S fuel) ref ci =
    match member (importedElements elements) (localName ref) with
    | Present (Written target) => loadClassDeclaration this fuel target ci
    | Present (Builtin _) | Unknown => Some Beyond
    | Missing =>
      match member (exportedImportedElements elements) (localName ref) with
      | Present (Written target) => loadClassDeclaration this fuel target ci
      | Present (Builtin _) | Unknown => Some Beyond
      | Missing =>
          tryExportAll
            (λ subFile, loadClassDeclaration this fuel
                          {| localName := localName ref; fileName := subFile |} ci)
            (exportedImportedAll elements) (couldNotLoadError ci ref)
      end
    end.
Proof.
  intros [Hparse Helements] (Hec & Hdc & Hi). simpl.
  rewrite Hparse, Helements, Hec, Hdc.
  destruct ci; [|done].
  destruct (Hi eq_refl) as [-> ->]. done.
Qed.

Lemma loadClassDeclaration_imported (fuel : nat) ref ci ast elements target :
  fileLoads this (fileName ref) ast elements →
  notDeclared ci elements (localName ref) →
  importedElements elements !! localName ref = Some target →
  loadClassDeclaration this (S fuel) ref ci = loadClassDeclaration this fuel target ci.
Proof.
  intros Hfile Hnot Hie%member_Written.
  by rewrite (loadClassDeclaration_indirect _ _ _ _ _ Hfile Hnot), Hie.
Qed.

Lemma loadClassDeclaration_exportedImported (fuel : nat) ref ci ast elements target :
  fileLoads this (fileName ref) ast elements →
  notDeclared ci elements (localName ref) →
  member (importedElements elements) (localName ref) = Missing →
  exportedImportedElements elements !! localName ref = Some target →
  loadClassDeclaration this (S fuel) ref ci = loadClassDeclaration this fuel target ci.
Proof.
  intros Hfile Hnot Hie Heie%member_Written.
  by rewrite (loadClassDeclaration_indirect _ _ _ _ _ Hfile Hnot), Hie, Heie.
Qed.

Lemma loadClassDeclaration_exportedAll (fuel : nat) ref ci ast elements :
  fileLoads this (fileName ref) ast elements →
  notDeclared ci elements (localName ref) →
  notBound elements (localName ref) →
  loadClassDeclaration this (S fuel) ref ci =
    tryExportAll
      (λ subFile, loadClassDeclaration this fuel
                    {| localName := localName ref; fileName := subFile |} ci)
      (exportedImportedAll elements) (couldNotLoadError ci ref).
Proof.
  intros Hfile Hnot [Hie Heie].
  by rewrite (loadClassDeclaration_indirect _ _ _ _ _ Hfile Hnot), Hie, Heie.
Qed.

Lemma tryExportAll_resolve ci ref attempt targets r :
  (∀ subFile r', attempt subFile = Some r' →
     resolve this ci {| localName := localName ref; fileName := subFile |} r') →
  tryExportAll attempt targets (couldNotLoadError ci ref) = Some r →
  resolveExportAll this ci ref targets r.
Proof.
  intros Hattempt. induction targets as [|subFile rest IH]; simpl.
  - intros [= <-]. constructor.
  - destruct (attempt subFile) as [[loaded|m|]|] eqn:E; [| | |done].
    + intros [= <-]. apply exportAll_found. by apply Hattempt.
    + intros H. eapply exportAll_skip; [by apply Hattempt|by apply IH].
    + intros [= <-]. apply exportAll_beyond. by apply Hattempt.
Qed.

Lemma loadClassDeclaration_resolve ci (fuel : nat) :
  ∀ ref r, loadClassDeclaration this fuel ref ci = Some r → resolve this ci ref r.
Proof.
  induction fuel as [|fuel IH]; intros ref r H; [done|]. simpl in H.
  destruct (parseTypescriptFile _ _) as [ast|m|] eqn:Hparse;
    [|injection H as <-; apply resolve_parse_error; by rewrite Hparse
     |injection H as <-; apply resolve_parse_error; by rewrite Hparse].
  destruct (getClassElements _ _ _) as [elements|m|] eqn:Helements;
    [|injection H as <-; eapply resolve_elements_error; [done|by rewrite Helements]
     |injection H as <-; eapply resolve_elements_error; [done|by rewrite Helements]].
  assert (fileLoads this (fileName ref) ast elements) as Hfile by done.
  destruct (member (exportedClasses elements) _) as [d| |] eqn:Hec;
    [injection H as <-; eapply resolve_exportedClass; [done|by rewrite Hec]
    |injection H as <-; eapply resolve_exportedClass; [done|by rewrite Hec]|].
  destruct (member (declaredClasses elements) _) as [d| |] eqn:Hdc;
    [injection H as <-; eapply resolve_declaredClass; [done..|by rewrite Hdc]
    |injection H as <-; eapply resolve_declaredClass; [done..|by rewrite Hdc]|].
  assert (∀ r', notDeclared ci elements (localName ref) →
    match member (importedElements elements) (localName ref) with
    | Present (Written target) => loadClassDeclaration this fuel target ci
    | Present (Builtin _) | Unknown => Some Beyond
    | Missing =>
      match member (exportedImportedElements elements) (localName ref) with
      | Present (Written target) => loadClassDeclaration this fuel target ci
      | Present (Builtin _) | Unknown => Some Beyond
      | Missing =>
          tryExportAll
            (λ subFile, loadClassDeclaration this fuel
                          {| localName := localName ref; fileName := subFile |} ci)
            (exportedImportedAll elements) (couldNotLoadError ci ref)
      end
    end = Some r' → resolve this ci ref r') as Hrest.
  { intros r' Hnot H'.
    destruct (member (importedElements elements) _) as [[target|name]| |] eqn:Hie.
    - eapply resolve_imported; eauto. by apply member_Written.
    - injection H' as <-. eapply resolve_imported_unreadable; eauto.
      rewrite Hie. right. by exists name.
    - injection H' as <-. eapply resolve_imported_unreadable; eauto.
      rewrite Hie. by left.
    - destruct (member (exportedImportedElements elements) _)
        as [[target|name]| |] eqn:Heie.
      + eapply resolve_exportedImported; eauto. by apply member_Written.
      + injection H' as <-. eapply resolve_exportedImported_unreadable; eauto.
        rewrite Heie. right. by exists name.
      + injection H' as <-. eapply resolve_exportedImported_unreadable; eauto.
        rewrite Heie. by left.
      + eapply resolve_exportedAll; eauto; [done|].
        eapply tryExportAll_resolve; [|exact H']. eauto. }
  destruct ci.
  - destruct (member (exportedInterfaces elements) _) as [d| |] eqn:Hei;
      [injection H as <-; eapply resolve_exportedInterface; [done..|by rewrite Hei]
      |injection H as <-; eapply resolve_exportedInterface; [done..|by rewrite Hei]|].
    destruct (member (declaredInterfaces elements) _) as [d| |] eqn:Hdi;
      [injection H as <-; eapply resolve_declaredInterface; [done..|by rewrite Hdi]
      |injection H as <-; eapply resolve_declaredInterface; [done..|by rewrite Hdi]|].
    apply Hrest; [|done]. by repeat split.
  - apply Hrest; [|done]. by repeat split.
Qed.

Lemma found_Some {D L} (load : Found D → Result L) (m : Member D) r :
  found load m = Some r →
  (∃ declaration, m = Present declaration ∧ r = load declaration) ∨
  (m = Unknown ∧ r = Beyond).
Proof. destruct m; simpl; intros [= <-]; eauto. Qed.

Lemma resolve_loadClassDeclaration ci ref r :
  resolve this ci ref r →
  ∃ fuel, loadClassDeclaration this fuel ref ci = Some r.
Proof.
  revert ref r.
  apply (resolve_mut this ci
    (λ ref r, ∃ fuel, loadClassDeclaration this fuel ref ci = Some r)
    (λ ref targets r, ∃ fuel,
       tryExportAll
         (λ subFile, loadClassDeclaration this fuel
                       {| localName := localName ref; fileName := subFile |} ci)
         targets (couldNotLoadError ci ref) = Some r)).
  - intros ref r Hparse. exists 1. simpl.
    by destruct (parseTypescriptFile _ _); simplify_eq/=.
  - intros ref ast r Hparse Helements. exists 1. simpl. rewrite Hparse.
    by destruct (getClassElements _ _ _); simplify_eq/=.
  - intros ref ast elements r [Hparse Helements] Hec. exists 1. simpl.
    rewrite Hparse, Helements.
    by destruct (member (exportedClasses elements) _); simplify_eq/=.
  - intros ref ast elements r [Hparse Helements] Hec Hdc. exists 1. simpl.
    rewrite Hparse, Helements, Hec.
    by destruct (member (declaredClasses elements) _); simplify_eq/=.
  - intros ref ast elements r [Hparse Helements] -> Hec Hdc Hei. exists 1.
    simpl. rewrite Hparse, Helements, Hec, Hdc.
    by destruct (member (exportedInterfaces elements) _); simplify_eq/=.
  - intros ref ast elements r [Hparse Helements] -> Hec Hdc Hei Hdi.
    exists 1. simpl. rewrite Hparse, Helements, Hec, Hdc, Hei.
    by destruct (member (declaredInterfaces elements) _); simplify_eq/=.
  - intros ref ast elements target r Hfile Hnot Hie _ [fuel IH].
    exists (S fuel). by rewrite (loadClassDeclaration_imported _ _ _ _ _ _ Hfile Hnot Hie).
  - intros ref ast elements Hfile Hnot Hie. exists 1.
    rewrite (loadClassDeclaration_indirect _ _ _ _ _ Hfile Hnot).
    by destruct Hie as [->|[name ->]].
  - intros ref ast elements target r Hfile Hnot Hie Heie _ [fuel IH].
    exists (S fuel).
    by rewrite (loadClassDeclaration_exportedImported _ _ _ _ _ _ Hfile Hnot Hie Heie).
  - intros ref ast elements Hfile Hnot Hie Heie. exists 1.
    rewrite (loadClassDeclaration_indirect _ _ _ _ _ Hfile Hnot), Hie.
    by destruct Heie as [->|[name ->]].
  - intros ref ast elements r Hfile Hnot Hbound _ [fuel IH].
    exists (S fuel).
    by rewrite (loadClassDeclaration_exportedAll _ _ _ _ _ Hfile Hnot Hbound).
  - intros ref. exists 0. done.
  - intros ref subFile rest loaded _ [fuel IH]. exists fuel. simpl.
    by rewrite IH.
  - intros ref subFile rest _ [fuel IH]. exists fuel. simpl.
    by rewrite IH.
  - intros ref subFile rest m r _ [fuel1 IH1] _ [fuel2 IH2].
    exists (fuel1 `max` fuel2). simpl.
    rewrite (loadClassDeclaration_mono _ _ _ _ _ IH1) by lia.
    eapply tryExportAll_mono; [|exact IH2].
    intros s r' Hr'. eapply loadClassDeclaration_mono; [exact Hr'|lia].
Qed.

Lemma enhanceLoadedWithComment_Return loaded enhanced :
  enhanceLoadedWithComment this loaded = Return enhanced →
  enhanced = loaded ∨
  ∃ description, description ≠ ""%string ∧ enhanced = withComment loaded description.
Proof.
  unfold enhanceLoadedWithComment.
  destruct (commentDescription this _) as [[description|]|m|]; simpl;
    [|by intros [= <-]; left|done..].
  destruct (decide (description = ""%string)); intros [= <-]; [by left|].
  right. by exists description.
Qed.

Lemma enhanceLoadedWithComment_isInterface loaded enhanced :
  enhanceLoadedWithComment this loaded = Return enhanced →
  isInterface enhanced = isInterface loaded.
Proof.
  intros [->|(description & _ & ->)]%enhanceLoadedWithComment_Return; [done|].
  by destruct loaded.
Qed.

Lemma tryExportAll_throws {A} (attempt : string → option (Result A))
    targets exhausted :
  Forall (λ subFile, ∃ m, attempt subFile = Some (Throw m)) targets →
  tryExportAll attempt targets exhausted = Some (Throw exhausted).
Proof.
  induction 1 as [|subFile rest [m Hm] _ IH]; simpl; [done|]. by rewrite Hm.
Qed.

Lemma tryExportAll_first {A} (attempt : string → option (Result A))
    before subFile after exhausted r :
  Forall (λ subFile, ∃ m, attempt subFile = Some (Throw m)) before →
  attempt subFile = Some r →
  (∀ m, r ≠ Throw m) →
  tryExportAll attempt (before ++ subFile :: after) exhausted = Some r.
Proof.
  intros Hbefore Hfound Hr.
  induction Hbefore as [|subFile' rest [m Hm] _ IH]; simpl.
  - rewrite Hfound. destruct r as [loaded|m|]; [done| |done]. by destruct (Hr m).
  - by rewrite Hm.
Qed.

Lemma tryExportAll_surfaces {A} (attempt : string → option (Result A))
    targets exhausted m :
  tryExportAll attempt targets exhausted = Some (Throw m) → m = exhausted.
Proof.
  induction targets as [|subFile rest IH]; simpl; [by intros [= <-]|].
  by destruct (attempt subFile) as [[loaded|m'|]|].
Qed.

(** Finitely many calls that throw do so within one common budget. *)
Lemma throwsIn_common_budget ci name targets :
  Forall (throwsIn this ci name) targets →
  ∃ fuel, Forall (λ subFile, ∃ m,
    loadClassDeclaration this fuel {| localName := name; fileName := subFile |} ci
      = Some (Throw m)) targets.
Proof.
  induction 1 as [|subFile rest (m & fuel1 & Hm) _ [fuel2 IH]].
  - by exists 0.
  - exists (fuel1 `max` fuel2). constructor.
    + exists m. eapply loadClassDeclaration_mono; [exact Hm|lia].
    + eapply Forall_impl; [exact IH|]. simpl. intros subFile' [m' Hm'].
      exists m'. eapply loadClassDeclaration_mono; [exact Hm'|lia].
Qed.

(** Every place has been tried: the call throws its own error. *)
Lemma loadClassDeclaration_exhausted ci ref ast elements :
  fileLoads this (fileName ref) ast elements →
  notDeclared ci elements (localName ref) →
  notBound elements (localName ref) →
  Forall (throwsIn this ci (localName ref)) (exportedImportedAll elements) →
  settles this ci ref (Throw (couldNotLoadError ci ref)).
Proof.
  intros Hfile Hnot Hbound [fuel Hall]%throwsIn_common_budget.
  exists (S fuel).
  rewrite (loadClassDeclaration_exportedAll _ _ _ _ _ Hfile Hnot Hbound).
  by apply tryExportAll_throws.
Qed.

(** One hop does not change what the call settles with. *)
Lemma indirection_settles ci ref target r :
  indirection this ci ref target →
  settles this ci target r →
  (∀ m, r ≠ Throw m) →
  settles this ci ref r.
Proof.
  intros Hhop [fuel Htarget] Hreturn.
  destruct Hhop as [ref ast elements target Hfile Hnot Hie
                   |ref ast elements target Hfile Hnot Hie Heie
                   |ref ast elements before subFile after Hfile Hnot Hbound
                      Hall Hbefore].
  - exists (S fuel).
    by rewrite (loadClassDeclaration_imported _ _ _ _ _ _ Hfile Hnot Hie).
  - exists (S fuel).
    by rewrite (loadClassDeclaration_exportedImported _ _ _ _ _ _ Hfile Hnot Hie Heie).
  - apply throwsIn_common_budget in Hbefore as [fuel' Hbefore].
    exists (S (fuel `max` fuel')).
    rewrite (loadClassDeclaration_exportedAll _ _ _ _ _ Hfile Hnot Hbound), Hall.
    apply tryExportAll_first; [| |done].
    + eapply Forall_impl; [exact Hbefore|]. simpl. intros subFile' [m' Hm'].
      exists m'. eapply loadClassDeclaration_mono; [exact Hm'|lia].
    + eapply loadClassDeclaration_mono; [exact Htarget|lia].
Qed.

Lemma resolve_class_only ref r :
  resolve this false ref r →
  ∀ loaded, r = Return loaded → isInterface loaded = false.
Proof.
  assert (∀ {D} (load : Found D → Result ClassReferenceLoaded) m r loaded,
            (∀ d enhanced, load d = Return enhanced → isInterface enhanced = false) →
            found load m = Some r → r = Return loaded →
            isInterface loaded = false) as Hfound.
  { intros D load m r' loaded Hload [(d & _ & ->)|[_ ->]]%found_Some Hloaded; [|done].
    by eapply Hload. }
  revert ref r.
  apply (resolve_mut this false
    (λ _ r, ∀ loaded, r = Return loaded → isInterface loaded = false)
    (λ _ _ r, ∀ loaded, r = Return loaded → isInterface loaded = false));
    try done; try (intros; simplify_eq; by eauto).
  - intros ref r H loaded ->. by destruct (parseTypescriptFile _ _).
  - intros ref ast r _ H loaded ->. by destruct (getClassElements _ _ _).
  - intros ref ast elements r _ H loaded Hloaded.
    eapply Hfound; [|exact H|exact Hloaded]. intros d enhanced He.
    by rewrite (enhanceLoadedWithComment_isInterface _ _ He).
  - intros ref ast elements r _ _ H loaded Hloaded.
    eapply Hfound; [|exact H|exact Hloaded]. intros d enhanced He.
    by rewrite (enhanceLoadedWithComment_isInterface _ _ He).
Qed.
End Budget.

(** ** Heritage clauses *)

Lemma mapResult_Return {A B} (f : A → Result B) (l : list A) (ys : list B) :
  mapResult f l = Return ys → Forall2 (λ x y, f x = Return y) l ys.
Proof.
  revert ys. induction l as [|x l IH]; intros ys; simpl.
  - intros [= <-]. constructor.
  - destruct (f x) as [y|m|] eqn:Hx; [|done..]. simpl.
    destruct (mapResult f l) as [ys'|m|] eqn:Hl; [|done..]. simpl.
    intros [= <-]. constructor; [done|]. by apply IH.
Qed.

Lemma mapResult_Throw {A B} (f : A → Result B) (before after : list A) x
    (ys : list B) m :
  Forall2 (λ x y, f x = Return y) before ys →
  f x = Throw m →
  mapResult f (before ++ x :: after) = Throw m.
Proof.
  intros Hbefore Hx. induction Hbefore as [|x' y' before ys Hx' _ IH]; simpl.
  - by rewrite Hx.
  - by rewrite Hx', IH.
Qed.

Lemma superInterfaceName_bare fileName entry :
  superInterfaceName fileName entry =
    match bareHeritage entry with
    | Some name => Return name
    | None => Throw (superInterfaceTypeError fileName (heritage_loc entry))
    end.
Proof.
  unfold superInterfaceName, bareHeritage.
  destruct (heritage_type entry), (expression entry); done.
Qed.

(** C4: [getSuperClassName] returns nothing for a class without superclass
    and the name of a superclass that is an identifier, and throws for every
    other expression, member expressions included, an error whose message
    ends with the file name, the line and the column of the expression.
    [getSuperInterfaceNames] throws such an error at the first entry of the
    [extends] list that is not an identifier under a [TSInterfaceHeritage],
    and when it returns, it returns one name for every entry: no entry is
    skipped. *)
Theorem heritage_identifier_or_error (fileName : string) :
  (∀ declaration,
     (superClass declaration = None →
        getSuperClassName declaration fileName = Return None) ∧
     (∀ name l, superClass declaration = Some (Identifier name l) →
        getSuperClassName declaration fileName = Return (Some name)) ∧
     (∀ e, superClass declaration = Some e → isIdentifier e = false →
        ∃ what, getSuperClassName declaration fileName =
                  Throw (what +:+ fileName +:+ " on line " +:+
                         pretty (line (start (expression_loc e))) +:+ " column " +:+
                         pretty (column (start (expression_loc e)))))) ∧
  (∀ declaration,
     (∀ before entry after names,
        default [] (extends declaration) = before ++ entry :: after →
        Forall2 (λ h name, bareHeritage h = Some name) before names →
        bareHeritage entry = None →
        ∃ what, getSuperInterfaceNames declaration fileName =
                  Throw (what +:+ fileName +:+ " on line " +:+
                         pretty (line (start (heritage_loc entry))) +:+ " column " +:+
                         pretty (column (start (heritage_loc entry))))) ∧
     (∀ names, getSuperInterfaceNames declaration fileName = Return names →
        Forall2 (λ h name, bareHeritage h = Some name)
                (default [] (extends declaration)) names)).
Proof.
  split; intros declaration.
  - unfold getSuperClassName. repeat split.
    + by intros ->.
    + by intros name l ->.
    + intros e -> Hid. destruct e as [name l|object property l|ty l]; [done| |].
      * simpl. destruct (isIdentifier property && isIdentifier object); eauto.
      * simpl. eauto.
  - unfold getSuperInterfaceNames. split.
    + intros before entry after names -> Hbefore Hentry.
      eexists. eapply mapResult_Throw.
      * eapply Forall2_impl; [exact Hbefore|]. simpl. intros h name Hh.
        by rewrite superInterfaceName_bare, Hh.
      * rewrite superInterfaceName_bare, Hentry. reflexivity.
    + intros names Hnames. apply mapResult_Return in Hnames.
      eapply Forall2_impl; [exact Hnames|]. simpl. intros h name.
      rewrite superInterfaceName_bare. destruct (bareHeritage h); [|done].
      by intros [= ->].
Qed.

(** ** Generic types *)

Lemma collect_lookup (params : list TSTypeParameter) (genericTypes : GenericTypes) name :
  foldl (λ (genericTypes : GenericTypes) param,
           <[tp_name param := {| type := constraint param |}]> genericTypes)
        genericTypes params !! name =
    match last (filter (λ param, tp_name param = name) params) with
    | Some param => Some {| type := constraint param |}
    | None => genericTypes !! name
    end.
Proof.
  revert genericTypes. induction params as [|param params IH]; intros g; [done|].
  simpl. rewrite IH. rewrite filter_cons.
  destruct (decide (tp_name param = name)) as [<-|Hne].
  - destruct (filter _ params) as [|param' l] eqn:Hfilter; simpl.
    + by rewrite hash_lookup_insert_eq.
    + rewrite last_cons. by destruct (last l).
  - destruct (last _); [done|]. by rewrite hash_lookup_insert_ne.
Qed.

(** Away from [__proto__], what has been assigned is an entry. *)
Lemma hash_lookup_entries {V} (o : Hash V) k :
  k ≠ "__proto__"%string → entries o !! k = o !! k.
Proof.
  intros Hk. unfold lookup at 2, Hash_lookup. by rewrite decide_False.
Qed.

Lemma collect_entries (params : list TSTypeParameter) (genericTypes : GenericTypes) :
  "__proto__"%string ∉ tp_name <$> params →
  entries (foldl (λ (genericTypes : GenericTypes) param,
                    <[tp_name param := {| type := constraint param |}]> genericTypes)
                 genericTypes params) =
  foldl (λ entries param, <[tp_name param := {| type := constraint param |}]> entries)
        (entries genericTypes) params.
Proof.
  revert genericTypes. induction params as [|param params IH]; intros g Hproto; [done|].
  rewrite fmap_cons, not_elem_of_cons in Hproto. destruct Hproto as [Hne Hproto].
  simpl. rewrite IH by done. f_equal.
  unfold insert at 1, Hash_insert. by rewrite decide_False.
Qed.

Lemma collect_size (params : list TSTypeParameter) (entries : gmap string GenericType) :
  NoDup (tp_name <$> params) →
  (∀ param, param ∈ params → entries !! tp_name param = None) →
  size (foldl (λ entries param,
                 <[tp_name param := {| type := constraint param |}]> entries)
              entries params) = size entries + length params.
Proof.
  revert entries. induction params as [|param params IH]; intros g Hnodup Hfresh.
  - simpl. lia.
  - simpl. rewrite fmap_cons, NoDup_cons in Hnodup. destruct Hnodup as [Hnotin Hnodup].
    rewrite IH; [|done|].
    + rewrite map_size_insert_None; [lia|]. apply Hfresh. left.
    + intros param' Hin. rewrite lookup_insert_ne; [apply Hfresh; by right|].
      intros Heq. apply Hnotin. rewrite Heq. by apply list_elem_of_fmap_2.
Qed.

Lemma collectGenericTypes_lookup classDeclaration name :
  collectGenericTypes classDeclaration !! name =
    (λ param, {| type := constraint param |}) <$>
      last (filter (λ param, tp_name param = name)
                   (declaredTypeParameters classDeclaration)).
Proof.
  unfold collectGenericTypes, declaredTypeParameters.
  destruct (typeParameters classDeclaration) as [params|]; simpl;
    [|apply hash_lookup_empty].
  rewrite collect_lookup. destruct (last _); [done|]. apply hash_lookup_empty.
Qed.

(** C6, as stated, fails on [class X<T extends Foo, T>]: two parameters are
    declared and the mapping has the single entry [T], without constraint. *)
Lemma duplicatedTypeParameter_one_entry :
  ¬ oneEntryPerTypeParameter duplicatedTypeParameter.
Proof. intros [Hsize _]. vm_compute in Hsize. discriminate Hsize. Qed.

(** C6, amended: a declaration without type-parameter list yields the empty
    mapping; the mapping has an entry of its own for a name other than
    [__proto__] exactly when a type parameter of that name is declared, and
    the entry holds the constraint of the last parameter declared with that
    name; and
    when the declared names are pairwise distinct and none is [__proto__],
    there is exactly one entry for each parameter, and its [type] is absent
    exactly when the parameter has no constraint.  Nothing is said of the
    entry of a parameter named [__proto__]. *)
Theorem collectGenericTypes_entries (classDeclaration : Declaration) :
  (typeParameters classDeclaration = None →
     collectGenericTypes classDeclaration = ∅) ∧
  (∀ name, name ≠ "__proto__"%string →
     (is_Some (entries (collectGenericTypes classDeclaration) !! name) ↔
      name ∈ tp_name <$> declaredTypeParameters classDeclaration)) ∧
  (∀ name entry, name ≠ "__proto__"%string →
     entries (collectGenericTypes classDeclaration) !! name = Some entry →
     ∃ param,
       last (filter (λ param, tp_name param = name)
                    (declaredTypeParameters classDeclaration)) = Some param ∧
       type entry = constraint param) ∧
  (NoDup (tp_name <$> declaredTypeParameters classDeclaration) →
   "__proto__"%string ∉ tp_name <$> declaredTypeParameters classDeclaration →
     oneEntryPerTypeParameter classDeclaration).
Proof.
  split; [|split; [|split]].
  - unfold collectGenericTypes. by intros ->.
  - intros name Hname.
    rewrite hash_lookup_entries, collectGenericTypes_lookup, fmap_is_Some by done.
    rewrite list_elem_of_fmap. split.
    + intros [param Hlast]. apply last_Some_elem_of in Hlast.
      apply list_elem_of_filter in Hlast as [<- Hin]. eauto.
    + intros (param & -> & Hin).
      destruct (last _) as [param'|] eqn:Hlast; [done|].
      apply last_None in Hlast.
      assert (param ∈ filter (λ param', tp_name param' = tp_name param)
                (declaredTypeParameters classDeclaration)) as Hin'
        by by apply list_elem_of_filter.
      rewrite Hlast in Hin'. by apply elem_of_nil in Hin'.
  - intros name entry Hname.
    rewrite hash_lookup_entries, collectGenericTypes_lookup by done.
    destruct (last _) as [param|]; [|done]. intros [= <-]. eauto.
  - intros Hnodup Hproto. split.
    + unfold collectGenericTypes, declaredTypeParameters in *.
      destruct (typeParameters classDeclaration) as [params|]; simpl in *; [|done].
      rewrite collect_entries by done.
      rewrite collect_size; [|done|intros; apply lookup_empty].
      simpl. by rewrite map_size_empty.
    + intros param Hin.
      assert (tp_name param ≠ "__proto__"%string) as Hname.
      { intros Heq. apply Hproto. rewrite <- Heq. by apply list_elem_of_fmap_2. }
      rewrite hash_lookup_entries, collectGenericTypes_lookup by done.
      assert (filter (λ param', tp_name param' = tp_name param)
                (declaredTypeParameters classDeclaration) = [param]) as ->.
      { clear Hproto Hname. revert Hnodup Hin.
        induction (declaredTypeParameters classDeclaration) as [|param' params IH];
          intros Hnodup Hin; [by apply elem_of_nil in Hin|].
        rewrite fmap_cons, NoDup_cons in Hnodup. destruct Hnodup as [Hnotin Hnodup].
        rewrite filter_cons. apply elem_of_cons in Hin as [->|Hin].
        - rewrite decide_True by done. f_equal.
          destruct (filter _ params) as [|param'' rest] eqn:Hfilter; [done|].
          assert (param'' ∈ filter (λ param0, tp_name param0 = tp_name param') params)
            as [Heq Hin']%list_elem_of_filter by (rewrite Hfilter; left).
          exfalso. apply Hnotin. rewrite <- Heq. by apply list_elem_of_fmap_2.
        - rewrite decide_False; [by apply IH|].
          intros Heq. apply Hnotin. rewrite Heq. by apply list_elem_of_fmap_2. }
      simpl. eexists. split; [done|]. done.
Qed.

Lemma collectGenericTypes_entries_witness :
  NoDup (tp_name <$> declaredTypeParameters twoTypeParameters) ∧
  oneEntryPerTypeParameter twoTypeParameters.
Proof.
  assert (NoDup (tp_name <$> declaredTypeParameters twoTypeParameters)) as Hnodup
    by (apply (bool_decide_unpack _); vm_compute; exact I).
  assert ("__proto__"%string ∉ tp_name <$> declaredTypeParameters twoTypeParameters)
    as Hproto by (apply (bool_decide_unpack _); vm_compute; exact I).
  split; [exact Hnodup|].
  exact (proj2 (proj2 (proj2 (collectGenericTypes_entries twoTypeParameters)))
           Hnodup Hproto).
Defined.

(** ** The two errors of getSuperClassName *)

(** X10: [getSuperClassName] throws its error [Namespaced superclasses are
    currently not supported] exactly for a superclass of the form [x.B], a
    member expression whose object and property are both identifiers; every
    other superclass that is not an identifier gets the error [Could not
    interpret type of superclass]. *)
Theorem getSuperClassName_namespaced (declaration : ClassDeclaration)
    (file : string) :
  ((∃ l, getSuperClassName declaration file =
           Throw (namespacedSuperclassError file l)) ↔
   (∃ object objectLoc property propertyLoc l,
      superClass declaration =
        Some (MemberExpression (Identifier object objectLoc)
                               (Identifier property propertyLoc) l))) ∧
  (∀ e, superClass declaration = Some e →
     isIdentifier e = false →
     (∀ object objectLoc property propertyLoc l,
        e ≠ MemberExpression (Identifier object objectLoc)
                             (Identifier property propertyLoc) l) →
     getSuperClassName declaration file =
       Throw (superclassTypeError file (expression_loc e))).
Proof.
  unfold getSuperClassName. split; [split|].
  - intros [l H].
    destruct (superClass declaration) as [[name l0|object property l0|ty l0]|];
      try done.
    destruct property as [p pl| |], object as [o ol| |]; simpl in H;
      try (by eauto 10); injection H as H; discriminate H.
  - intros (object & objectLoc & property & propertyLoc & l & ->). by exists l.
  - intros e -> Hid Hshape.
    destruct e as [name l0|object property l0|ty l0]; [done| |done].
    destruct property as [p pl| |], object as [o ol| |]; simpl; try done.
    by destruct (Hshape o ol p pl l0).
Qed.

(** ** The contexts of a generated component *)

Lemma addContexts_cons (contexts : list string) contextFile contextFiles :
  addContexts contexts (contextFile :: contextFiles) =
    addContexts (if decide (contextFile ∈ contexts) then contexts
                 else contexts ++ [contextFile]) contextFiles.
Proof. done. Qed.

(** X12: adding the context files of the superclass's component keeps the
    contexts already there, in place; afterwards the list holds exactly the
    contexts it had and the files that were added; a list without
    repetition stays without repetition; and adding the same files once more
    changes nothing. *)
Theorem addContexts_union (contexts contextFiles : list string) :
  (∃ added, addContexts contexts contextFiles = contexts ++ added) ∧
  (∀ context, context ∈ addContexts contexts contextFiles ↔
              context ∈ contexts ∨ context ∈ contextFiles) ∧
  (NoDup contexts → NoDup (addContexts contexts contextFiles)) ∧
  addContexts (addContexts contexts contextFiles) contextFiles =
    addContexts contexts contextFiles.
Proof.
  assert (∀ files contexts : list string,
            (∀ file, file ∈ files → file ∈ contexts) →
            addContexts contexts files = contexts) as Hsame.
  { induction files as [|file files IH]; intros cs Hall; [done|].
    rewrite addContexts_cons, decide_True by (apply Hall; left).
    apply IH. intros file' Hin. apply Hall. by right. }
  assert (∀ files contexts context,
            context ∈ addContexts contexts files ↔
            context ∈ contexts ∨ context ∈ files) as Hmember.
  { induction files as [|file files IH]; intros cs context.
    - simpl. rewrite elem_of_nil. tauto.
    - rewrite addContexts_cons, IH, elem_of_cons.
      destruct (decide (file ∈ cs)) as [Hin|Hnotin].
      + split; [tauto|]. intros [?|[->|?]]; tauto.
      + rewrite elem_of_app, list_elem_of_singleton. tauto. }
  split; [|split; [apply Hmember|split]].
  - revert contexts.
    induction contextFiles as [|file files IH]; intros contexts.
    + exists []. by rewrite app_nil_r.
    + rewrite addContexts_cons. destruct (decide (file ∈ contexts)); [apply IH|].
      destruct (IH (contexts ++ [file])) as [added ->].
      exists (file :: added). by rewrite <- app_assoc.
  - revert contexts.
    induction contextFiles as [|file files IH]; intros contexts Hnodup; [done|].
    rewrite addContexts_cons. destruct (decide (file ∈ contexts)); [by apply IH|].
    apply IH. apply NoDup_app. split; [done|]. split.
    + intros context Hin ->%list_elem_of_singleton. done.
    + apply NoDup_singleton.
  - apply Hsame. intros file Hin. apply Hmember. by right.
Qed.

Lemma addContexts_union_witness :
  NoDup (addContexts ["a.jsonld"; "b.jsonld"]%string ["b.jsonld"; "c.jsonld"; "c.jsonld"]%string) ∧
  addContexts ["a.jsonld"; "b.jsonld"]%string ["b.jsonld"; "c.jsonld"; "c.jsonld"]%string
    = ["a.jsonld"; "b.jsonld"; "c.jsonld"]%string.
Proof.
  split; [|by vm_compute].
  apply (addContexts_union ["a.jsonld"; "b.jsonld"]%string
           ["b.jsonld"; "c.jsonld"; "c.jsonld"]%string).
  apply (bool_decide_unpack _). vm_compute. exact I.
Defined.


(** ** The extraction of the class elements *)

Section Extraction.
Context (this : ClassLoader).

Lemma classifyStatement_exportedImportedAll fileName elements statement elements' :
  classifyStatement this fileName elements statement = Return elements' →
  exportedImportedAll elements' =
    exportedImportedAll elements ++
      (sourcePath this fileName <$> wildcardSources [statement]).
Proof.
  destruct statement as [[[d|d|]|] source specifiers|source|d|d|source specifiers|];
    simpl; repeat case_match; intros; simplify_eq; simpl;
    by rewrite ?app_nil_r.
Qed.

Lemma wildcardSources_cons statement statements :
  wildcardSources (statement :: statements) =
    wildcardSources [statement] ++ wildcardSources statements.
Proof. unfold wildcardSources. simpl. by case_match. Qed.

Lemma classifyStatements_exportedImportedAll fileName statements :
  ∀ elements elements',
    classifyStatements this fileName elements statements = Return elements' →
    exportedImportedAll elements' =
      exportedImportedAll elements ++
        (sourcePath this fileName <$> wildcardSources statements).
Proof.
  induction statements as [|statement statements IH];
    intros elements elements' Hrest; simpl in Hrest.
  - injection Hrest as <-. by rewrite app_nil_r.
  - destruct (classifyStatement this fileName elements statement)
      as [elements1|m|] eqn:Hstatement; [|done..]. simpl in Hrest.
    rewrite (IH _ _ Hrest).
    rewrite (classifyStatement_exportedImportedAll _ _ _ _ Hstatement).
    rewrite (wildcardSources_cons statement statements), fmap_app.
    by rewrite app_assoc.
Qed.

Lemma classifyStatements_app fileName statements1 statements2 :
  ∀ elements,
    classifyStatements this fileName elements (statements1 ++ statements2) =
    elements' ← classifyStatements this fileName elements statements1;
    classifyStatements this fileName elements' statements2.
Proof.
  induction statements1 as [|statement statements1 IH]; intros elements; [done|].
  simpl. destruct (classifyStatement this fileName elements statement); simpl; [|done..].
  apply IH.
Qed.

(** The first exported class without a name ends the extraction. *)
Lemma getClassElements_nameless fileName ast before declaration source specifiers
    after elements :
  body ast = before ++
    ExportNamedDeclaration (Some (ExportedClass declaration)) source specifiers :: after →
  class_id declaration = None →
  classifyStatements this fileName noClassElements before = Return elements →
  getClassElements this fileName ast =
    Throw (missingExportedClassNameError fileName (class_loc declaration)).
Proof.
  intros Hbody Hid Hbefore. unfold getClassElements.
  rewrite Hbody, classifyStatements_app, Hbefore. simpl. by rewrite Hid.
Qed.

(** The wildcard targets of a file are the sources of its
    [export * from] statements, in the order of the statements. *)
Lemma getClassElements_exportedImportedAll fileName ast elements :
  getClassElements this fileName ast = Return elements →
  exportedImportedAll elements =
    sourcePath this fileName <$> wildcardSources (body ast).
Proof. intros H. by rewrite (classifyStatements_exportedImportedAll _ _ _ _ H). Qed.
End Extraction.

(** ** The resolution of a reference *)

(** C1: a call of [loadClassDeclaration] settles with a result exactly when
    the result is derived by the rules of the resolution order: the exported
    classes of the file, then its declared classes, then, when interfaces are
    considered, its exported and its declared interfaces, then the import
    binding, then the re-export binding, then the wildcard targets one after
    the other, every hop being made with the flag of the call; and with the
    flag off no call returns an interface.  A name is in an index as the
    loader tests it, with [in]; what is found is handed to the comment
    loader, whose error is the error of the call. *)
Theorem loadClassDeclaration_resolution_order (this : ClassLoader)
    (ref : ClassReference) (ci : bool) :
  (∀ r, settles this ci ref r ↔ resolve this ci ref r) ∧
  (∀ loaded, settles this false ref (Return loaded) → isInterface loaded = false).
Proof.
  split.
  - intros r. split.
    + intros [fuel H]. by eapply loadClassDeclaration_resolve.
    + apply resolve_loadClassDeclaration.
  - intros loaded [fuel H]. apply loadClassDeclaration_resolve in H.
    by eapply resolve_class_only.
Qed.

(** C2: when [N] hops of the resolver lead from a reference to a reference
    that its own file declares, the call on the first reference returns the
    very loaded declaration that the call on the last one returns on its own
    (within a budget of one call, that is, without any hop): the same tag,
    declaration, tree, generics, abstract flag and comment. *)
Theorem indirection_transparent (this : ClassLoader) (ci : bool) (N : nat)
    (ref authoritative : ClassReference) (loaded : ClassReferenceLoaded) :
  nsteps (indirection this ci) N ref authoritative →
  loadClassDeclaration this 1 authoritative ci = Some (Return loaded) →
  settles this ci ref (Return loaded).
Proof.
  intros Hchain Hdirect.
  induction Hchain as [ref|N ref target authoritative Hhop _ IH].
  - by exists 1.
  - eapply indirection_settles; [exact Hhop|by apply IH|done].
Qed.

(** C3: when the name is in no index and no binding of the file, as the
    loader tests it with [in], the wildcard targets are tried in the order
    of the [export * from] statements of the file; the targets that throw
    are passed over, and the call returns what the first target that
    resolves the name returns. *)
Theorem exportAll_first_success (this : ClassLoader) (ci : bool)
    (ref : ClassReference) (ast : AST) (elements : ClassElements)
    (before after : list string) (subFile : string)
    (loaded : ClassReferenceLoaded) :
  fileLoads this (fileName ref) ast elements →
  notDeclared ci elements (localName ref) →
  notBound elements (localName ref) →
  sourcePath this (fileName ref) <$> wildcardSources (body ast)
    = before ++ subFile :: after →
  Forall (throwsIn this ci (localName ref)) before →
  settles this ci {| localName := localName ref; fileName := subFile |}
          (Return loaded) →
  settles this ci ref (Return loaded).
Proof.
  intros Hfile Hnot Hbound Htargets Hbefore Hfound.
  eapply indirection_settles; [|exact Hfound|done].
  eapply via_exportedImportedAll; eauto.
  destruct Hfile as [_ Helements].
  by rewrite (getClassElements_exportedImportedAll _ _ _ _ Helements).
Qed.

(** C7: when the name is in none of the indexes of the file and in neither
    hash of bindings, as the loader tests it with [in] (a test that also
    finds the members of [Object.prototype]), and every wildcard target
    throws, the call throws the error [Could not load ... <name> from
    <file>], with the name and the file of the reference it was called
    with. *)
Theorem loadClassDeclaration_not_found (this : ClassLoader) (ci : bool)
    (ref : ClassReference) (ast : AST) (elements : ClassElements) :
  fileLoads this (fileName ref) ast elements →
  notDeclared ci elements (localName ref) →
  notBound elements (localName ref) →
  Forall (throwsIn this ci (localName ref)) (exportedImportedAll elements) →
  ∃ kind,
    settles this ci ref
      (Throw ("Could not load " +:+ kind +:+ " " +:+ localName ref +:+
              " from " +:+ fileName ref)).
Proof.
  intros Hfile Hnot Hbound Hall.
  exists (if ci then "class or interface"%string else "class"%string).
  by eapply loadClassDeclaration_exhausted.
Qed.

Lemma indirection_transparent_witness :
  nsteps (indirection fixture false) 3
    {| localName := "X"; fileName := "index" |}
    {| localName := "Y"; fileName := "core" |} ∧
  loadClassDeclaration fixture 1 {| localName := "Y"; fileName := "core" |} false
    = Some (Return classYLoaded) ∧
  settles fixture false {| localName := "X"; fileName := "index" |}
          (Return classYLoaded).
Proof.
  assert (nsteps (indirection fixture false) 3
            {| localName := "X"; fileName := "index" |}
            {| localName := "Y"; fileName := "core" |}) as Hchain.
  { apply nsteps_l with {| localName := "X"; fileName := "mid" |};
      [|apply nsteps_l with {| localName := "Y"; fileName := "impl" |};
        [|apply nsteps_l with {| localName := "Y"; fileName := "core" |};
          [|apply nsteps_O]]].
    - apply (via_exportedImportedAll fixture false
               {| localName := "X"; fileName := "index" |}
               (sourceFile [exportAllFrom "./empty"; exportAllFrom "./mid"])
               (setExportedImportedAll noClassElements ["empty"; "mid"]%string)
               ["empty"%string] "mid" []).
      + split; vm_compute; reflexivity.
      + repeat split; vm_compute; reflexivity.
      + split; vm_compute; reflexivity.
      + reflexivity.
      + constructor; [|constructor].
        exists "Could not load class X from empty"%string, 1.
        vm_compute. reflexivity.
    - apply (via_importedElements fixture false
               {| localName := "X"; fileName := "mid" |}
               (sourceFile [ImportDeclaration (StringLiteral "./impl")
                              [ImportSpecifier "X" "Y"]])
               (setImportedElements noClassElements
                  {[ "X"%string := {| localName := "Y"; fileName := "impl" |} ]})).
      + split; vm_compute; reflexivity.
      + repeat split; vm_compute; reflexivity.
      + vm_compute. reflexivity.
    - apply (via_exportedImportedElements fixture false
               {| localName := "Y"; fileName := "impl" |}
               (sourceFile [ExportNamedDeclaration None (Some (StringLiteral "./core"))
                              [{| es_local := "Y"; es_exported := "Y" |}]])
               (setExportedImportedElements noClassElements
                  {[ "Y"%string := {| localName := "Y"; fileName := "core" |} ]})).
      + split; vm_compute; reflexivity.
      + repeat split; vm_compute; reflexivity.
      + vm_compute. reflexivity.
      + vm_compute. reflexivity. }
  assert (loadClassDeclaration fixture 1 {| localName := "Y"; fileName := "core" |} false
            = Some (Return classYLoaded)) as Hdirect
    by (vm_compute; reflexivity).
  split; [exact Hchain|]. split; [exact Hdirect|].
  exact (indirection_transparent fixture false 3 _ _ _ Hchain Hdirect).
Defined.

Lemma exportAll_first_success_witness :
  settles fixture false {| localName := "Y"; fileName := "overBroken" |}
          (Return classYLoaded).
Proof.
  apply (exportAll_first_success fixture false
           {| localName := "Y"; fileName := "overBroken" |}
           (sourceFile [exportAllFrom "./broken"; exportAllFrom "./core"])
           (setExportedImportedAll noClassElements ["broken"; "core"]%string)
           ["broken"%string] [] "core").
  - split; vm_compute; reflexivity.
  - repeat split; vm_compute; reflexivity.
  - split; vm_compute; reflexivity.
  - vm_compute. reflexivity.
  - constructor; [|constructor].
    exists (missingExportedClassNameError "broken"
              {| start := {| line := 3; column := 7 |} |}), 1.
    vm_compute. reflexivity.
  - exists 1. vm_compute. reflexivity.
Defined.

Lemma loadClassDeclaration_not_found_witness :
  ∃ kind,
    settles fixture true {| localName := "X"; fileName := "dead" |}
      (Throw ("Could not load " +:+ kind +:+ " X from dead")).
Proof.
  apply (loadClassDeclaration_not_found fixture true
           {| localName := "X"; fileName := "dead" |}
           (sourceFile [exportAllFrom "./empty"])
           (setExportedImportedAll noClassElements ["empty"%string])).
  - split; vm_compute; reflexivity.
  - repeat split; vm_compute; reflexivity.
  - split; vm_compute; reflexivity.
  - constructor; [|constructor].
    exists "Could not load class or interface X from empty"%string, 1.
    vm_compute. reflexivity.
Defined.

(** ** Cycles of wildcard re-exports *)

(** Two files that name each other as their first wildcard target, and have
    the name nowhere else: no budget settles the call on either. *)
Lemma mutual_exportAll_unsettled (this : ClassLoader) (ci : bool) (name : string)
    (fileA fileB : string) astA elementsA astB elementsB restA restB :
  fileLoads this fileA astA elementsA →
  fileLoads this fileB astB elementsB →
  notDeclared ci elementsA name → notBound elementsA name →
  notDeclared ci elementsB name → notBound elementsB name →
  exportedImportedAll elementsA = fileB :: restA →
  exportedImportedAll elementsB = fileA :: restB →
  ∀ fuel,
    loadClassDeclaration this fuel {| localName := name; fileName := fileA |} ci = None ∧
    loadClassDeclaration this fuel {| localName := name; fileName := fileB |} ci = None.
Proof.
  intros HfileA HfileB HnotA HboundA HnotB HboundB HallA HallB fuel.
  induction fuel as [|fuel [IHA IHB]]; [done|]. split.
  - rewrite (loadClassDeclaration_exportedAll this fuel
               {| localName := name; fileName := fileA |} ci astA elementsA
               HfileA HnotA HboundA).
    simpl. rewrite HallA. simpl. by rewrite IHB.
  - rewrite (loadClassDeclaration_exportedAll this fuel
               {| localName := name; fileName := fileB |} ci astB elementsB
               HfileB HnotB HboundB).
    simpl. rewrite HallB. simpl. by rewrite IHA.
Qed.

Lemma loop_fixture_unsettled (fuel : nat) :
  loadClassDeclaration fixture fuel {| localName := "X"; fileName := "loopA" |} false
    = None.
Proof.
  eapply (mutual_exportAll_unsettled fixture false "X" "loopA" "loopB"
            (sourceFile [exportAllFrom "./loopB"])
            (setExportedImportedAll noClassElements ["loopB"%string])
            (sourceFile [exportAllFrom "./loopA"])
            (setExportedImportedAll noClassElements ["loopA"%string]) [] []);
    first [reflexivity | repeat split; vm_compute; reflexivity].
Qed.

(** C5, as stated, fails on the files [loopA] ([export * from './loopB']) and
    [loopB] ([export * from './loopA']): the call for a name that neither
    file declares throws no error, whatever the budget. *)
Lemma mutual_exportAll_no_error :
  ¬ ∃ m, settles fixture false {| localName := "X"; fileName := "loopA" |} (Throw m).
Proof. intros (m & fuel & H). by rewrite loop_fixture_unsettled in H. Qed.

(** C5, amended: when two files name each other as their first wildcard
    target and the name is in no index and no binding of either, as the
    loader tests it, the call of [loadClassDeclaration] for that name in
    either file never settles: it neither returns nor throws, whatever the
    budget.  The loader keeps no set of visited references. *)
Theorem mutual_exportAll_never_settles (this : ClassLoader) (ci : bool)
    (name fileA fileB : string) (astA astB : AST)
    (elementsA elementsB : ClassElements) (restA restB : list string) :
  fileLoads this fileA astA elementsA →
  fileLoads this fileB astB elementsB →
  notDeclared ci elementsA name → notBound elementsA name →
  notDeclared ci elementsB name → notBound elementsB name →
  exportedImportedAll elementsA = fileB :: restA →
  exportedImportedAll elementsB = fileA :: restB →
  (∀ r, ¬ settles this ci {| localName := name; fileName := fileA |} r) ∧
  (∀ r, ¬ settles this ci {| localName := name; fileName := fileB |} r).
Proof.
  intros HfileA HfileB HnotA HboundA HnotB HboundB HallA HallB.
  pose proof (mutual_exportAll_unsettled this ci name fileA fileB _ _ _ _ _ _
                HfileA HfileB HnotA HboundA HnotB HboundB HallA HallB) as Hnone.
  split; intros r [fuel H]; destruct (Hnone fuel) as [HA HB]; congruence.
Qed.

Lemma mutual_exportAll_never_settles_witness :
  (∀ r, ¬ settles fixture true {| localName := "X"; fileName := "loopA" |} r) ∧
  (∀ r, ¬ settles fixture true {| localName := "X"; fileName := "loopB" |} r).
Proof.
  apply (mutual_exportAll_never_settles fixture true "X" "loopA" "loopB"
           (sourceFile [exportAllFrom "./loopB"])
           (sourceFile [exportAllFrom "./loopA"])
           (setExportedImportedAll noClassElements ["loopB"%string])
           (setExportedImportedAll noClassElements ["loopA"%string]) [] []);
    first [reflexivity | repeat split; vm_compute; reflexivity].
Defined.

(** ** The catch of the wildcard loop *)

Lemma tryExportAll_skip {A} (attempt : string → option (Result A))
    before subFile after exhausted m :
  attempt subFile = Some (Throw m) →
  tryExportAll attempt (before ++ subFile :: after) exhausted =
    tryExportAll attempt (before ++ after) exhausted.
Proof.
  intros Hthrow. induction before as [|subFile' before IH]; simpl.
  - by rewrite Hthrow.
  - by rewrite IH.
Qed.

(** C10: for a name that is in no index and no binding of the file, as the
    loader tests it, whatever is thrown under a wildcard target is caught.
    A target whose call throws, for any reason, counts as if it were not in
    the list; a target whose file exports a class without a name throws the
    error of the extraction, [Export parsing failure: missing exported class
    name ...], and so is such a target; and the only error the call itself
    can throw is its own [Could not load ...]. *)
Theorem exportAll_catch_unconditional (this : ClassLoader) (ci : bool)
    (ref : ClassReference) (ast : AST) (elements : ClassElements) :
  fileLoads this (fileName ref) ast elements →
  notDeclared ci elements (localName ref) →
  notBound elements (localName ref) →
  (∀ fuel before subFile after m,
     exportedImportedAll elements = before ++ subFile :: after →
     loadClassDeclaration this fuel
       {| localName := localName ref; fileName := subFile |} ci = Some (Throw m) →
     loadClassDeclaration this (S fuel) ref ci =
       tryExportAll
         (λ subFile, loadClassDeclaration this fuel
                       {| localName := localName ref; fileName := subFile |} ci)
         (before ++ after) (couldNotLoadError ci ref)) ∧
  (∀ fuel subFile astTarget statements declaration source specifiers rest elements1,
     parseTypescriptFile (resolutionContext this) subFile = Return astTarget →
     body astTarget = statements ++
       ExportNamedDeclaration (Some (ExportedClass declaration)) source specifiers
         :: rest →
     class_id declaration = None →
     classifyStatements this subFile noClassElements statements = Return elements1 →
     loadClassDeclaration this (S fuel)
       {| localName := localName ref; fileName := subFile |} ci =
       Some (Throw (missingExportedClassNameError subFile (class_loc declaration)))) ∧
  (∀ fuel m,
     loadClassDeclaration this fuel ref ci = Some (Throw m) →
     m = couldNotLoadError ci ref).
Proof.
  intros Hfile Hnot Hbound. split; [|split].
  - intros fuel before subFile after m Hall Hthrow.
    rewrite (loadClassDeclaration_exportedAll _ _ _ _ _ _ Hfile Hnot Hbound), Hall.
    by eapply (tryExportAll_skip
      (λ subFile, loadClassDeclaration this fuel
                    {| localName := localName ref; fileName := subFile |} ci)).
  - intros fuel subFile astTarget statements declaration source specifiers rest
      elements1 Hparse Hbody Hid Hstatements. simpl. rewrite Hparse.
    by rewrite (getClassElements_nameless this _ _ _ _ _ _ _ _ Hbody Hid Hstatements).
  - intros [|fuel] m; [done|].
    rewrite (loadClassDeclaration_exportedAll _ _ _ _ _ _ Hfile Hnot Hbound).
    apply tryExportAll_surfaces.
Qed.

Lemma exportAll_catch_unconditional_witness :
  loadClassDeclaration fixture 2 {| localName := "Y"; fileName := "overBroken" |} false
    = tryExportAll
        (λ subFile, loadClassDeclaration fixture 1
                      {| localName := "Y"; fileName := subFile |} false)
        ["core"%string]
        (couldNotLoadError false {| localName := "Y"; fileName := "overBroken" |}).
Proof.
  assert (fileLoads fixture "overBroken"
            (sourceFile [exportAllFrom "./broken"; exportAllFrom "./core"])
            (setExportedImportedAll noClassElements ["broken"; "core"]%string)) as Hfile
    by (split; vm_compute; reflexivity).
  assert (notDeclared false
            (setExportedImportedAll noClassElements ["broken"; "core"]%string) "Y") as Hnot
    by (repeat split; vm_compute; reflexivity).
  assert (notBound (setExportedImportedAll noClassElements ["broken"; "core"]%string) "Y")
    as Hbound by (split; vm_compute; reflexivity).
  apply (proj1 (exportAll_catch_unconditional fixture false
                  {| localName := "Y"; fileName := "overBroken" |} _ _ Hfile Hnot Hbound)
           1 [] "broken"%string ["core"%string]
           (missingExportedClassNameError "broken"
              {| start := {| line := 3; column := 7 |} |})).
  - reflexivity.
  - vm_compute. reflexivity.
Defined.

(** ** Imports *)

Lemma hash_lookup_proto {V} (o : Hash V) : o !! "__proto__"%string = prototype o.
Proof. done. Qed.

Section Imports.
Context (this : ClassLoader).

Lemma importSpecifiers_filter file value specifiers :
  ∀ m : Hash ClassReference,
    foldl (λ (m : Hash ClassReference) specifier,
             match specifier with
             | ImportSpecifier local imported =>
                 <[local := {| localName := imported;
                               fileName := sourcePath this file value |}]> m
             | _ => m
             end) m (filter (λ specifier, isImportSpecifier specifier) specifiers) =
    foldl (λ (m : Hash ClassReference) specifier,
             match specifier with
             | ImportSpecifier local imported =>
                 <[local := {| localName := imported;
                               fileName := sourcePath this file value |}]> m
             | _ => m
             end) m specifiers.
Proof.
  induction specifiers as [|specifier specifiers IH]; intros m; [done|].
  rewrite filter_cons. destruct specifier; simpl; apply IH.
Qed.

Lemma importSpecifiers_origin file value specifiers name target :
  ∀ m : Hash ClassReference,
    foldl (λ (m : Hash ClassReference) specifier,
             match specifier with
             | ImportSpecifier local imported =>
                 <[local := {| localName := imported;
                               fileName := sourcePath this file value |}]> m
             | _ => m
             end) m specifiers !! name = Some target →
    m !! name = Some target ∨
    ∃ imported, ImportSpecifier name imported ∈ specifiers.
Proof.
  induction specifiers as [|specifier specifiers IH]; intros m; simpl; [by left|].
  intros [Hm|[imported Hin]]%IH.
  - destruct specifier as [local imported|local|local]; [|by left..].
    destruct (decide (local = name)) as [->|Hne].
    + right. exists imported. left.
    + left. by rewrite hash_lookup_insert_ne in Hm.
  - right. exists imported. by right.
Qed.

Lemma classifyStatement_namedImportsOnly file elements statement :
  classifyStatement this file elements (namedImportsOnly statement) =
  classifyStatement this file elements statement.
Proof.
  destruct statement as [d source specifiers|source|d|d|source specifiers|]; try done.
  destruct source as [value| |]; simpl; [|done..].
  by rewrite importSpecifiers_filter.
Qed.

Lemma classifyStatements_namedImportsOnly file statements :
  ∀ elements,
    classifyStatements this file elements (namedImportsOnly <$> statements) =
    classifyStatements this file elements statements.
Proof.
  induction statements as [|statement statements IH]; intros elements; [done|].
  rewrite fmap_cons. simpl. rewrite classifyStatement_namedImportsOnly.
  destruct (classifyStatement this file elements statement); simpl; [|done..].
  apply IH.
Qed.

Lemma classifyStatement_importedElements file elements statement elements'
    name target :
  classifyStatement this file elements statement = Return elements' →
  importedElements elements' !! name = Some target →
  importedElements elements !! name = Some target ∨
  ∃ source specifiers imported,
    statement = ImportDeclaration source specifiers ∧
    ImportSpecifier name imported ∈ specifiers.
Proof.
  destruct statement as [[[d|d|]|] source specifiers|source|d|d|source specifiers|];
    simpl; repeat case_match; intros; simplify_eq; simpl in *; eauto.
  match goal with
  | H : foldl _ _ _ !! _ = Some _ |- _ =>
      apply importSpecifiers_origin in H as [?|[imported ?]]
  end; [by left|]. right. eauto.
Qed.

Lemma classifyStatements_importedElements file statements name target :
  ∀ elements elements',
    classifyStatements this file elements statements = Return elements' →
    importedElements elements' !! name = Some target →
    importedElements elements !! name = Some target ∨
    ∃ source specifiers imported,
      ImportDeclaration source specifiers ∈ statements ∧
      ImportSpecifier name imported ∈ specifiers.
Proof.
  induction statements as [|statement statements IH];
    intros elements elements' Hrest Hlookup; simpl in Hrest.
  - injection Hrest as <-. by left.
  - destruct (classifyStatement this file elements statement)
      as [elements1|m|] eqn:Hstatement; [|done..]. simpl in Hrest.
    destruct (IH _ _ Hrest Hlookup) as [H1|(source & specifiers & imported & Hin & Hspec)].
    + destruct (classifyStatement_importedElements _ _ _ _ _ _ Hstatement H1)
        as [?|(source & specifiers & imported & -> & Hspec)]; [by left|].
      right. exists source, specifiers, imported. split; [left|done].
    + right. exists source, specifiers, imported. split; [by right|done].
Qed.

Lemma getClassElements_importedElements file ast elements name target :
  getClassElements this file ast = Return elements →
  importedElements elements !! name = Some target →
  ∃ source specifiers imported,
    ImportDeclaration source specifiers ∈ body ast ∧
    ImportSpecifier name imported ∈ specifiers.
Proof.
  intros Helements Hlookup.
  destruct (classifyStatements_importedElements _ _ _ _ _ _ Helements Hlookup)
    as [Hempty|?]; [|done].
  simpl in Hempty. by rewrite hash_lookup_empty in Hempty.
Qed.
End Imports.

(** C9: only the named specifiers of an import are recorded.  The class
    elements of a file are those of the file with the default and the
    namespace specifiers of its imports removed; in a file that ends with
    [import { A as B } from "b"] the loader finds [B] in [importedElements]
    and reads there the reference to [A] in the file that [b] joins to;
    every entry of [importedElements] comes
    from a specifier [import { A as B }] of the file; and for a name that is
    in no declaration index of the file, as the loader tests it, that no
    named import and no re-export of the file binds, in a file none of whose
    named imports has the local name [__proto__], and that no wildcard
    target resolves, the call throws its [Could not load ...] error,
    whatever default or namespace import the file has of that name. *)
Theorem default_imports_not_followed (this : ClassLoader) :
  (∀ file ast,
     getClassElements this file
       {| body := namedImportsOnly <$> body ast; comments := comments ast |} =
     getClassElements this file ast) ∧
  (∀ file ast elements source A B,
     getClassElements this file ast = Return elements →
     ∃ elements',
       getClassElements this file
         {| body := body ast ++
              [ImportDeclaration (StringLiteral source) [ImportSpecifier B A]];
            comments := comments ast |} = Return elements' ∧
       member (importedElements elements') B =
         Present (Written {| localName := A;
                             fileName := sourcePath this file source |})) ∧
  (∀ file ast elements name target,
     getClassElements this file ast = Return elements →
     importedElements elements !! name = Some target →
     ∃ source specifiers imported,
       ImportDeclaration source specifiers ∈ body ast ∧
       ImportSpecifier name imported ∈ specifiers) ∧
  (∀ ci ref ast elements,
     fileLoads this (fileName ref) ast elements →
     notDeclared ci elements (localName ref) →
     (∀ source specifiers imported,
        ImportDeclaration source specifiers ∈ body ast →
        (ImportSpecifier (localName ref) imported ∉ specifiers) ∧
        (ImportSpecifier "__proto__" imported ∉ specifiers)) →
     member (exportedImportedElements elements) (localName ref) = Missing →
     Forall (throwsIn this ci (localName ref)) (exportedImportedAll elements) →
     settles this ci ref (Throw (couldNotLoadError ci ref))).
Proof.
  split; [|split; [|split]].
  - intros file ast. apply classifyStatements_namedImportsOnly.
  - intros file ast elements source A B Helements.
    unfold getClassElements in *. simpl.
    rewrite classifyStatements_app, Helements. simpl.
    eexists. split; [reflexivity|]. simpl.
    apply member_Written, hash_lookup_insert_eq.
  - apply getClassElements_importedElements.
  - intros ci ref ast elements Hfile Hnot Hnamed Heie Hall.
    eapply loadClassDeclaration_exhausted; eauto. split; [|done].
    assert (∀ name, (∀ source specifiers imported,
                       ImportDeclaration source specifiers ∈ body ast →
                       ImportSpecifier name imported ∉ specifiers) →
                    importedElements elements !! name = None) as Hnone.
    { intros name Hname.
      destruct (importedElements elements !! name) as [target|] eqn:Hie; [|done].
      destruct Hfile as [_ Helements].
      destruct (getClassElements_importedElements _ _ _ _ _ _ Helements Hie)
        as (source & specifiers & imported & Hin & Hspec).
      by destruct (Hname _ _ _ Hin Hspec). }
    apply member_Missing. split; [|split].
    + apply Hnone. intros. by eapply Hnamed.
    + rewrite <- hash_lookup_proto. apply Hnone. intros. by eapply Hnamed.
    + destruct Hnot as [Hec _]. by apply member_Missing in Hec as (_ & _ & ?).
Qed.

Lemma default_imports_not_followed_witness :
  settles fixture true {| localName := "Y"; fileName := "defaulted" |}
    (Throw "Could not load class or interface Y from defaulted").
Proof.
  apply (proj2 (proj2 (proj2 (default_imports_not_followed fixture))) true
           {| localName := "Y"; fileName := "defaulted" |}
           (sourceFile [ImportDeclaration (StringLiteral "./core")
                          [ImportDefaultSpecifier "Y"];
                        ImportDeclaration (StringLiteral "./core")
                          [ImportNamespaceSpecifier "ns"]])
           noClassElements).
  - split; vm_compute; reflexivity.
  - repeat split; vm_compute; reflexivity.
  - intros source specifiers imported Hin. simpl in Hin.
    apply elem_of_cons in Hin as [Heq|Hin].
    + injection Heq as _ ->. split; intros Hspec;
        (apply elem_of_cons in Hspec as [Hspec|Hspec];
         [discriminate Hspec|by apply elem_of_nil in Hspec]).
    + apply elem_of_cons in Hin as [Heq|Hin]; [|by apply elem_of_nil in Hin].
      injection Heq as _ ->. split; intros Hspec;
        (apply elem_of_cons in Hspec as [Hspec|Hspec];
         [discriminate Hspec|by apply elem_of_nil in Hspec]).
  - vm_compute. reflexivity.
  - constructor.
Defined.

(** ** Exports of unknown origin *)

Section UnknownExports.
Context (this : ClassLoader).

Lemma classifyStatements_withoutUnknownExports file statements :
  ∀ elements,
    classifyStatements (withoutUnknownExports this) file elements statements =
    classifyStatements this file elements statements.
Proof.
  induction statements as [|statement statements IH]; intros elements; [done|].
  simpl.
  change (classifyStatement (withoutUnknownExports this) file elements statement)
    with (classifyStatement this file elements statement).
  destruct (classifyStatement this file elements statement); simpl; [|done..].
  apply IH.
Qed.

Lemma sameIndexes_refl elements : sameIndexes elements elements.
Proof. by repeat split. Qed.

Lemma classifyStatement_unknownExport file elements statement :
  unknownExport statement = true →
  ∃ elements', classifyStatement this file elements statement = Return elements' ∧
               sameIndexes elements elements'.
Proof.
  destruct statement as [[[d|d|]|] source specifiers|source|d|d|source specifiers|];
    simpl; try done;
    destruct (stringSource source); try done; intros _;
    eexists; (split; [reflexivity|by repeat split]).
Qed.

Lemma classifyStatement_sameIndexes file elements1 elements2 statement :
  sameIndexes elements1 elements2 →
  sameExtraction (classifyStatement this file elements1 statement)
                 (classifyStatement this file elements2 statement).
Proof.
  intros (Hec & Hei & Heie & Hall & Hdc & Hdi & Hie).
  destruct statement as [[[d|d|]|] source specifiers|source|d|d|source specifiers|];
    simpl; repeat case_match; simpl; try done;
    unfold sameIndexes; simpl; rewrite ?Hec, ?Hei, ?Heie, ?Hall, ?Hdc, ?Hdi, ?Hie;
    by repeat split.
Qed.

Lemma classifyStatements_sameIndexes file statements :
  ∀ elements1 elements2,
    sameIndexes elements1 elements2 →
    sameExtraction
      (classifyStatements this file elements1 statements)
      (classifyStatements this file elements2
         (filter (λ statement, ¬ unknownExport statement) statements)).
Proof.
  induction statements as [|statement statements IH];
    intros elements1 elements2 Hsame; [done|].
  rewrite filter_cons. destruct (unknownExport statement) eqn:Hunknown.
  - rewrite decide_False by (intros Hnot; by apply Hnot).
    destruct (classifyStatement_unknownExport file elements1 statement Hunknown)
      as (elements1' & Hstatement & (Hec & Hei & Heie & Hall & Hdc & Hdi & Hie)).
    simpl. rewrite Hstatement. simpl. apply IH.
    destruct Hsame as (Hec' & Hei' & Heie' & Hall' & Hdc' & Hdi' & Hie').
    repeat split; congruence.
  - rewrite decide_True by (intros Hyes; exact Hyes).
    simpl.
    pose proof (classifyStatement_sameIndexes file _ _ statement Hsame) as Hstep.
    destruct (classifyStatement this file elements1 statement) as [e1|m1|],
             (classifyStatement this file elements2 statement) as [e2|m2|];
      simpl in *; try done.
    by apply IH.
Qed.

(** The comment loader is given the reference, the declaration and the
    comments of the file: two loaders with the same comment loader treat
    alike two loaded references that agree on these. *)
Lemma enhanceLoadedWithComment_sameOutcome (this' : ClassLoader) loaded loaded' :
  commentDescription this' = commentDescription this →
  commentSubject loaded = commentSubject loaded' →
  sameDeclaration loaded loaded' →
  sameOutcome (Some (enhanceLoadedWithComment this loaded))
              (Some (enhanceLoadedWithComment this' loaded')).
Proof.
  unfold enhanceLoadedWithComment. intros -> -> Hsame.
  destruct (commentDescription this (commentSubject loaded')) as [[description|]|m|];
    simpl; repeat case_decide; destruct loaded, loaded'; simpl in *;
    try done; intuition congruence.
Qed.

Lemma tryExportAll_sameOutcome
    (attempt attempt' : string → option (Result ClassReferenceLoaded))
    targets exhausted :
  (∀ subFile, sameOutcome (attempt subFile) (attempt' subFile)) →
  sameOutcome (tryExportAll attempt targets exhausted)
              (tryExportAll attempt' targets exhausted).
Proof.
  intros Hsame. induction targets as [|subFile rest IH]; simpl; [done|].
  specialize (Hsame subFile).
  destruct (attempt subFile) as [[loaded|m|]|],
           (attempt' subFile) as [[loaded'|m'|]|]; done.
Qed.

(** The resolver gives the same outcome whether or not the files have
    their exports of unknown origin. *)
Lemma loadClassDeclaration_withoutUnknownExports ci (fuel : nat) :
  ∀ ref,
    sameOutcome (loadClassDeclaration this fuel ref ci)
                (loadClassDeclaration (withoutUnknownExports this) fuel ref ci).
Proof.
  induction fuel as [|fuel IH]; intros ref; [done|]. simpl.
  destruct (parseTypescriptFile (resolutionContext this) (fileName ref))
    as [ast|m|]; simpl; [|done..].
  unfold getClassElements. simpl.
  rewrite classifyStatements_withoutUnknownExports.
  pose proof (classifyStatements_sameIndexes (fileName ref) (body ast)
                _ _ (sameIndexes_refl noClassElements)) as Hextraction.
  destruct (classifyStatements this (fileName ref) noClassElements (body ast))
    as [elements|m|],
    (classifyStatements this (fileName ref) noClassElements
       (filter (λ statement, ¬ unknownExport statement) (body ast)))
    as [elements'|m'|]; simpl in Hextraction; try done.
  destruct Hextraction as (Hec & Hei & Heie & Hall & Hdc & Hdi & Hie).
  rewrite <- Hec, <- Hei, <- Heie, <- Hall, <- Hdc, <- Hdi, <- Hie.
  assert (∀ d ast', comments ast' = comments ast →
            sameOutcome (Some (loadedClass this ref d ast))
              (Some (loadedClass (withoutUnknownExports this) ref d ast'))) as Hclass.
  { intros d ast' Hcomments. apply enhanceLoadedWithComment_sameOutcome; [done| |done].
    unfold commentSubject. simpl. by rewrite Hcomments. }
  assert (∀ d ast', comments ast' = comments ast →
            sameOutcome (Some (loadedInterface this ref d ast))
              (Some (loadedInterface (withoutUnknownExports this) ref d ast')))
    as Hinterface.
  { intros d ast' Hcomments. apply enhanceLoadedWithComment_sameOutcome; [done| |done].
    unfold commentSubject. simpl. by rewrite Hcomments. }
  repeat case_match; try done; try (by apply Hclass); try (by apply Hinterface);
    try apply IH; apply tryExportAll_sameOutcome; intros; apply IH.
Qed.

(** The extraction never gives [exportedUnknowns] an entry of its own under
    [__proto__]. *)
Lemma unknownSpecifiers_proto specifiers :
  ∀ m : gmap string string,
    m !! "__proto__"%string = None →
    foldl (λ m specifier,
             assignPrimitive (es_exported specifier) (es_local specifier) m)
          m specifiers !! "__proto__"%string = None.
Proof.
  induction specifiers as [|specifier specifiers IH]; intros m Hm; [done|].
  simpl. apply IH. unfold assignPrimitive. case_decide; [done|].
  by rewrite lookup_insert_ne.
Qed.

Lemma classifyStatement_exportedUnknowns_proto file elements statement elements' :
  classifyStatement this file elements statement = Return elements' →
  exportedUnknowns elements !! "__proto__"%string = None →
  exportedUnknowns elements' !! "__proto__"%string = None.
Proof.
  destruct statement as [[[d|d|]|] source specifiers|source|d|d|source specifiers|];
    simpl; repeat case_match; intros; simplify_eq; simpl in *; try done;
    by apply unknownSpecifiers_proto.
Qed.

Lemma classifyStatements_exportedUnknowns_proto file statements :
  ∀ elements elements',
    classifyStatements this file elements statements = Return elements' →
    exportedUnknowns elements !! "__proto__"%string = None →
    exportedUnknowns elements' !! "__proto__"%string = None.
Proof.
  induction statements as [|statement statements IH];
    intros elements elements' Hrest Hproto; simpl in Hrest.
  - by injection Hrest as <-.
  - destruct (classifyStatement this file elements statement)
      as [elements1|m|] eqn:Hstatement; [|done..]. simpl in Hrest.
    eapply IH; [done|]. by eapply classifyStatement_exportedUnknowns_proto.
Qed.
End UnknownExports.

(** C8, at the exported name [__proto__]: the statement
    [export { A as __proto__ }] records nothing.  The class elements of a
    file that ends with it are those of the file without it, and no file has
    an entry of its own under [__proto__] in [exportedUnknowns]: the
    assignment [exportedUnknowns['__proto__'] = 'A'] of line 232 goes to the
    setter of [Object.prototype], which ignores a string. *)
Theorem exportedUnknowns_proto_not_recorded (this : ClassLoader) :
  (∀ file ast A,
     getClassElements this file
       {| body := body ast ++
            [ExportNamedDeclaration None None
               [{| es_local := A; es_exported := "__proto__" |}]];
          comments := comments ast |} =
     getClassElements this file ast) ∧
  (∀ file ast elements,
     getClassElements this file ast = Return elements →
     exportedUnknowns elements !! "__proto__"%string = None).
Proof.
  split.
  - intros file ast A. unfold getClassElements. simpl.
    rewrite classifyStatements_app.
    destruct (classifyStatements this file noClassElements (body ast))
      as [elements|m|]; simpl; [|done..].
    by destruct elements.
  - intros file ast elements Helements.
    by eapply classifyStatements_exportedUnknowns_proto.
Qed.

(** * Further properties of the extraction *)

Lemma recordNamed_lastNamed {D} (key : D → option string) (declarations : list D)
    (name : string) :
  ∀ index : Hash D,
    foldl (recordNamed key) index declarations !! name =
      match lastNamed key name declarations with
      | Some declaration => Some declaration
      | None => index !! name
      end.
Proof.
  unfold lastNamed.
  induction declarations as [|declaration declarations IH]; intros index; [done|].
  simpl. rewrite IH, filter_cons. unfold recordNamed.
  destruct (decide (key declaration = Some name)) as [Hkey|Hkey].
  - rewrite Hkey, last_cons. destruct (last _); [done|].
    by rewrite hash_lookup_insert_eq.
  - destruct (last _); [done|]. destruct (key declaration) as [name'|]; [|done].
    rewrite hash_lookup_insert_ne; [done|]. by intros ->.
Qed.

Lemma member_memberOfLast {D} (key : D → option string) (declarations : list D)
    (index : Hash D) :
  (∀ name, index !! name = lastNamed key name declarations) →
  ∀ name, member index name = memberOfLast key declarations name.
Proof.
  intros Hindex name. unfold member, memberOfLast.
  by rewrite Hindex, <- hash_lookup_proto, Hindex.
Qed.

Lemma classifyStatement_declarations (this : ClassLoader) fileName elements statement
    elements' :
  classifyStatement this fileName elements statement = Return elements' →
  exportedClasses elements' =
    foldl (recordNamed class_id) (exportedClasses elements)
          (omap exportedClassOf [statement]) ∧
  declaredClasses elements' =
    foldl (recordNamed class_id) (declaredClasses elements)
          (omap declaredClassOf [statement]) ∧
  exportedInterfaces elements' =
    foldl (recordNamed (Some ∘ interface_id)) (exportedInterfaces elements)
          (omap exportedInterfaceOf [statement]) ∧
  declaredInterfaces elements' =
    foldl (recordNamed (Some ∘ interface_id)) (declaredInterfaces elements)
          (omap declaredInterfaceOf [statement]).
Proof.
  destruct statement as [[[d|d|]|] source specifiers|source|d|d|source specifiers|];
    simpl; unfold recordNamed; simpl; repeat case_match; intros; simplify_eq; done.
Qed.

Lemma omap_cons_singleton {A B} (f : A → option B) x l :
  omap f (x :: l) = omap f [x] ++ omap f l.
Proof. simpl. by destruct (f x). Qed.

Lemma classifyStatements_declarations (this : ClassLoader) fileName statements :
  ∀ elements elements',
    classifyStatements this fileName elements statements = Return elements' →
    exportedClasses elements' =
      foldl (recordNamed class_id) (exportedClasses elements)
            (omap exportedClassOf statements) ∧
    declaredClasses elements' =
      foldl (recordNamed class_id) (declaredClasses elements)
            (omap declaredClassOf statements) ∧
    exportedInterfaces elements' =
      foldl (recordNamed (Some ∘ interface_id)) (exportedInterfaces elements)
            (omap exportedInterfaceOf statements) ∧
    declaredInterfaces elements' =
      foldl (recordNamed (Some ∘ interface_id)) (declaredInterfaces elements)
            (omap declaredInterfaceOf statements).
Proof.
  induction statements as [|statement statements IH];
    intros elements elements' Hrest; simpl in Hrest.
  - by injection Hrest as <-.
  - destruct (classifyStatement this fileName elements statement)
      as [elements1|m|] eqn:Hstatement; [|done..]. simpl in Hrest.
    destruct (IH _ _ Hrest) as (-> & -> & -> & ->).
    destruct (classifyStatement_declarations _ _ _ _ _ Hstatement)
      as (-> & -> & -> & ->).
    rewrite (omap_cons_singleton exportedClassOf statement statements),
            (omap_cons_singleton declaredClassOf statement statements),
            (omap_cons_singleton exportedInterfaceOf statement statements),
            (omap_cons_singleton declaredInterfaceOf statement statements).
    by rewrite !foldl_app.
Qed.

Lemma getClassElements_lookup_last (this : ClassLoader) fileName ast elements :
  getClassElements this fileName ast = Return elements →
  (∀ name, exportedClasses elements !! name =
             lastNamed class_id name (omap exportedClassOf (body ast))) ∧
  (∀ name, declaredClasses elements !! name =
             lastNamed class_id name (omap declaredClassOf (body ast))) ∧
  (∀ name, exportedInterfaces elements !! name =
             lastNamed (Some ∘ interface_id) name (omap exportedInterfaceOf (body ast))) ∧
  (∀ name, declaredInterfaces elements !! name =
             lastNamed (Some ∘ interface_id) name (omap declaredInterfaceOf (body ast))).
Proof.
  intros Helements.
  destruct (classifyStatements_declarations _ _ _ _ _ Helements) as (-> & -> & -> & ->).
  repeat split; intros name; rewrite recordNamed_lastNamed;
    destruct (lastNamed _ _ _); try done; apply hash_lookup_empty.
Qed.

(** X1: what the loader finds in each of the four indexes of declarations.
    Under a name, the loader's test [in] and its read find the last
    declaration of that name among the statements of the index's kind: a
    later declaration replaces an earlier one of the same name.  Where the
    file has no declaration of the name, they find the member of
    [Object.prototype] of that name, if there is one ([toString],
    [constructor], [__proto__], ...), and nothing otherwise; unless the
    file declares the name [__proto__], in which case the index has that
    declaration as its prototype and the test reads through it. *)
Theorem getClassElements_last_declaration (this : ClassLoader) (fileName : string)
    (ast : AST) (elements : ClassElements) :
  getClassElements this fileName ast = Return elements →
  (∀ name, member (exportedClasses elements) name =
             memberOfLast class_id (omap exportedClassOf (body ast)) name) ∧
  (∀ name, member (declaredClasses elements) name =
             memberOfLast class_id (omap declaredClassOf (body ast)) name) ∧
  (∀ name, member (exportedInterfaces elements) name =
             memberOfLast (Some ∘ interface_id)
               (omap exportedInterfaceOf (body ast)) name) ∧
  (∀ name, member (declaredInterfaces elements) name =
             memberOfLast (Some ∘ interface_id)
               (omap declaredInterfaceOf (body ast)) name).
Proof.
  intros (Hec & Hdc & Hei & Hdi)%getClassElements_lookup_last.
  repeat split; by apply member_memberOfLast.
Qed.

Lemma getClassElements_last_declaration_witness :
  member (exportedClasses
            (setExportedClasses noClassElements {[ "Y"%string := classY ]}))
         "Y"%string = Present (Written classY) ∧
  member (exportedClasses
            (setExportedClasses noClassElements {[ "Y"%string := classY ]}))
         "toString"%string = Present (Builtin "toString"%string) ∧
  member (exportedClasses
            (setExportedClasses noClassElements {[ "Y"%string := classY ]}))
         "Z"%string = Missing.
Proof.
  assert (getClassElements fixture2 "twice"
            (sourceFile
               [ExportNamedDeclaration (Some (ExportedClass
                  {| class_id := Some "Y"%string; superClass := None; abstract := None;
                     class_typeParameters := None; class_loc := origin |})) None [];
                ExportNamedDeclaration (Some (ExportedClass classY)) None []]) =
          Return (setExportedClasses noClassElements {[ "Y"%string := classY ]}))
    as Helements by (vm_compute; reflexivity).
  pose proof (proj1 (getClassElements_last_declaration fixture2 "twice" _ _ Helements))
    as Hmember.
  repeat split; rewrite Hmember; vm_compute; reflexivity.
Defined.

Lemma classifyStatement_nameless (this : ClassLoader) fileName elements statement :
  match namelessExport statement with
  | Some declaration =>
      classifyStatement this fileName elements statement =
        Throw (missingExportedClassNameError fileName (class_loc declaration))
  | None => ∃ elements', classifyStatement this fileName elements statement
                           = Return elements'
  end.
Proof.
  destruct statement as [[[d|d|]|] source specifiers|source|d|d|source specifiers|];
    unfold namelessExport; simpl; repeat case_match; simplify_eq; by eauto.
Qed.

Lemma classifyStatements_nameless (this : ClassLoader) fileName statements :
  ∀ elements,
    match firstNamelessExport statements with
    | Some declaration =>
        classifyStatements this fileName elements statements =
          Throw (missingExportedClassNameError fileName (class_loc declaration))
    | None => ∃ elements', classifyStatements this fileName elements statements
                             = Return elements'
    end.
Proof.
  unfold firstNamelessExport.
  induction statements as [|statement statements IH]; intros elements; simpl.
  - by eexists.
  - pose proof (classifyStatement_nameless this fileName elements statement) as Hstep.
    destruct (namelessExport statement) as [declaration|]; simpl.
    + by rewrite Hstep.
    + destruct Hstep as [elements' ->]. simpl. apply IH.
Qed.

(** X2: the extraction throws only for an exported class without a name.
    When the file has one, the extraction throws the error of the first of
    them, with the name of the file and the position of that class; when it
    has none, the extraction returns. *)
Theorem getClassElements_throws_nameless (this : ClassLoader) (fileName : string)
    (ast : AST) :
  match firstNamelessExport (body ast) with
  | Some declaration =>
      getClassElements this fileName ast =
        Throw (missingExportedClassNameError fileName (class_loc declaration))
  | None => ∃ elements, getClassElements this fileName ast = Return elements
  end.
Proof. apply classifyStatements_nameless. Qed.

Lemma importSpecifiers_binding (this : ClassLoader) file value specifiers name target :
  ∀ m : Hash ClassReference,
    foldl (λ (m : Hash ClassReference) specifier,
             match specifier with
             | ImportSpecifier local imported =>
                 <[local := {| localName := imported;
                               fileName := sourcePath this file value |}]> m
             | _ => m
             end) m specifiers !! name = Some target →
    m !! name = Some target ∨
    (ImportSpecifier name (localName target) ∈ specifiers ∧
     fileName target = sourcePath this file value).
Proof.
  induction specifiers as [|specifier specifiers IH]; intros m; simpl; [by left|].
  intros [Hm|[Hin Hfile]]%IH.
  - destruct specifier as [local imported|local|local]; [|by left..].
    destruct (decide (local = name)) as [->|Hne].
    + rewrite hash_lookup_insert_eq in Hm. injection Hm as <-.
      right. split; [left|done].
    + left. by rewrite hash_lookup_insert_ne in Hm.
  - right. split; [by right|done].
Qed.

Lemma exportSpecifiers_binding (this : ClassLoader) file value
    (specifiers : list ExportSpecifier) name target :
  ∀ m : Hash ClassReference,
    foldl (λ (m : Hash ClassReference) specifier,
             <[es_exported specifier :=
                 {| localName := es_local specifier;
                    fileName := sourcePath this file value |}]> m)
          m specifiers !! name = Some target →
    m !! name = Some target ∨
    ({| es_local := localName target; es_exported := name |} ∈ specifiers ∧
     fileName target = sourcePath this file value).
Proof.
  induction specifiers as [|specifier specifiers IH]; intros m; simpl; [by left|].
  intros [Hm|[Hin Hfile]]%IH.
  - destruct specifier as [local exported]. simpl in Hm.
    destruct (decide (exported = name)) as [->|Hne].
    + rewrite hash_lookup_insert_eq in Hm. injection Hm as <-.
      right. split; [left|done].
    + left. by rewrite hash_lookup_insert_ne in Hm.
  - right. split; [by right|done].
Qed.

Lemma classifyStatement_bindings (this : ClassLoader) file elements statement
    elements' name target :
  classifyStatement this file elements statement = Return elements' →
  (importedElements elements' !! name = Some target →
     importedElements elements !! name = Some target ∨
     ∃ value specifiers,
       statement = ImportDeclaration (StringLiteral value) specifiers ∧
       ImportSpecifier name (localName target) ∈ specifiers ∧
       fileName target = sourcePath this file value) ∧
  (exportedImportedElements elements' !! name = Some target →
     exportedImportedElements elements !! name = Some target ∨
     ∃ declaration value specifiers,
       statement = ExportNamedDeclaration declaration (Some (StringLiteral value))
                     specifiers ∧
       {| es_local := localName target; es_exported := name |} ∈ specifiers ∧
       fileName target = sourcePath this file value).
Proof.
  destruct statement as [[[d|d|]|] [[value| |]|] specifiers|source|d|d
                        |[value| |] specifiers|];
    simpl; repeat case_match; intros; simplify_eq; simpl;
    (split; [try (by left)|try (by left)]).
  all: try (intros [?|[??]]%exportSpecifiers_binding; [by left|]; right;
            do 3 eexists; by split).
  all: try (intros [?|[??]]%importSpecifiers_binding; [by left|]; right;
            do 2 eexists; by split).
Qed.

Lemma classifyStatements_bindings (this : ClassLoader) file statements name target :
  ∀ elements elements',
    classifyStatements this file elements statements = Return elements' →
    (importedElements elements' !! name = Some target →
       importedElements elements !! name = Some target ∨
       ∃ value specifiers,
         ImportDeclaration (StringLiteral value) specifiers ∈ statements ∧
         ImportSpecifier name (localName target) ∈ specifiers ∧
         fileName target = sourcePath this file value) ∧
    (exportedImportedElements elements' !! name = Some target →
       exportedImportedElements elements !! name = Some target ∨
       ∃ declaration value specifiers,
         ExportNamedDeclaration declaration (Some (StringLiteral value)) specifiers
           ∈ statements ∧
         {| es_local := localName target; es_exported := name |} ∈ specifiers ∧
         fileName target = sourcePath this file value).
Proof.
  induction statements as [|statement statements IH];
    intros elements elements' Hrest; simpl in Hrest.
  - injection Hrest as <-. split; by left.
  - destruct (classifyStatement this file elements statement)
      as [elements1|m|] eqn:Hstatement; [|done..]. simpl in Hrest.
    destruct (IH _ _ Hrest) as [IHi IHe].
    destruct (classifyStatement_bindings _ _ _ _ _ name target Hstatement) as [Hi He].
    split.
    + intros [H1|(value & specifiers & Hin & Hspec & Hfile)]%IHi.
      * destruct (Hi H1) as [?|(value & specifiers & -> & Hspec & Hfile)]; [by left|].
        right. exists value, specifiers. split; [left|done].
      * right. exists value, specifiers. split; [by right|done].
    + intros [H1|(d & value & specifiers & Hin & Hspec & Hfile)]%IHe.
      * destruct (He H1) as [?|(d & value & specifiers & -> & Hspec & Hfile)]; [by left|].
        right. exists d, value, specifiers. split; [left|done].
      * right. exists d, value, specifiers. split; [by right|done].
Qed.

(** X3: every binding of a file comes from a specifier of the file and
    points into the directory of the file.  An entry [B ↦ {A, file}] of
    [importedElements] comes from a specifier [A as B] of an import with a
    string source, an entry of [exportedImportedElements] from a specifier
    [A as B] of an export with a string source, and in both cases [file] is
    that source joined to the directory of the file that is extracted. *)
Theorem getClassElements_bindings (this : ClassLoader) (file : string)
    (ast : AST) (elements : ClassElements) :
  getClassElements this file ast = Return elements →
  (∀ name target,
     importedElements elements !! name = Some target →
     ∃ value specifiers,
       ImportDeclaration (StringLiteral value) specifiers ∈ body ast ∧
       ImportSpecifier name (localName target) ∈ specifiers ∧
       fileName target =
         Path_join this (Path_dirname this file) value) ∧
  (∀ name target,
     exportedImportedElements elements !! name = Some target →
     ∃ declaration value specifiers,
       ExportNamedDeclaration declaration (Some (StringLiteral value)) specifiers
         ∈ body ast ∧
       {| es_local := localName target; es_exported := name |} ∈ specifiers ∧
       fileName target =
         Path_join this (Path_dirname this file) value).
Proof.
  intros Helements. split; intros name target Hlookup.
  - destruct (classifyStatements_bindings this _ _ name target _ _ Helements)
      as [Hi _].
    destruct (Hi Hlookup) as [Hempty|?]; [|done].
    simpl in Hempty. by rewrite hash_lookup_empty in Hempty.
  - destruct (classifyStatements_bindings this _ _ name target _ _ Helements)
      as [_ He].
    destruct (He Hlookup) as [Hempty|?]; [|done].
    simpl in Hempty. by rewrite hash_lookup_empty in Hempty.
Qed.

Lemma getClassElements_bindings_witness :
  ∃ value specifiers,
    ImportDeclaration (StringLiteral value) specifiers
      ∈ [ImportDeclaration (StringLiteral "./impl") [ImportSpecifier "X" "Y"]] ∧
    ImportSpecifier "X" "Y" ∈ specifiers ∧
    "impl"%string = flatJoin "." value.
Proof.
  assert (getClassElements fixture "mid"
            (sourceFile [ImportDeclaration (StringLiteral "./impl")
                           [ImportSpecifier "X" "Y"]]) =
          Return (setImportedElements noClassElements
                    {[ "X"%string := {| localName := "Y"; fileName := "impl" |} ]}))
    as Helements by (vm_compute; reflexivity).
  apply (proj1 (getClassElements_bindings fixture "mid" _ _ Helements)
           "X"%string {| localName := "Y"; fileName := "impl" |}).
  vm_compute. reflexivity.
Defined.

(** * Further properties of the resolution *)

(** What a call settles with does not depend on the budget. *)
Lemma settles_unique (this : ClassLoader) ci ref r r' :
  settles this ci ref r → settles this ci ref r' → r = r'.
Proof.
  intros [fuel H] [fuel' H'].
  apply (loadClassDeclaration_mono this _ (fuel `max` fuel')) in H; [|lia].
  apply (loadClassDeclaration_mono this _ (fuel `max` fuel')) in H'; [|lia].
  congruence.
Qed.

(** The comment loader adds a comment and changes nothing else. *)
Lemma enhanceLoadedWithComment_fields (this : ClassLoader) loaded enhanced :
  enhanceLoadedWithComment this loaded = Return enhanced →
  loadedComment loaded = None →
  loadedReference enhanced = loadedReference loaded ∧
  loadedAst enhanced = loadedAst loaded ∧
  loadedGenerics enhanced = loadedGenerics loaded ∧
  loadedComment enhanced ≠ Some ""%string ∧
  match loaded, enhanced with
  | LoadedClass c, LoadedClass c' =>
      cl_declaration c' = cl_declaration c ∧ cl_abstract c' = cl_abstract c
  | LoadedInterface i, LoadedInterface i' => il_declaration i' = il_declaration i
  | _, _ => False
  end.
Proof.
  intros [->|(description & Hne & ->)]%enhanceLoadedWithComment_Return Hcomment;
    destruct loaded; simpl in *; repeat split; congruence.
Qed.

Lemma loadedClass_reference (this : ClassLoader) ref declaration ast loaded :
  loadedClass this ref declaration ast = Return loaded →
  loadedReference loaded = ref.
Proof.
  intros H. apply enhanceLoadedWithComment_fields in H as [-> _]; [|done].
  by destruct ref.
Qed.

Lemma loadedInterface_reference (this : ClassLoader) ref declaration ast loaded :
  loadedInterface this ref declaration ast = Return loaded →
  loadedReference loaded = ref.
Proof.
  intros H. apply enhanceLoadedWithComment_fields in H as [-> _]; [|done].
  by destruct ref.
Qed.

(** What a call returns without any hop: a class or an interface of the
    file of the reference. *)
Lemma loadClassDeclaration_direct (this : ClassLoader) ci ref loaded :
  loadClassDeclaration this 1 ref ci = Some (Return loaded) →
  ∃ ast elements,
    fileLoads this (fileName ref) ast elements ∧
    ((∃ declaration,
        (member (exportedClasses elements) (localName ref) = Present declaration ∨
         member (exportedClasses elements) (localName ref) = Missing ∧
         member (declaredClasses elements) (localName ref) = Present declaration) ∧
        loadedClass this ref declaration ast = Return loaded) ∨
     (ci = true ∧
      member (exportedClasses elements) (localName ref) = Missing ∧
      member (declaredClasses elements) (localName ref) = Missing ∧
      ∃ declaration,
        (member (exportedInterfaces elements) (localName ref) = Present declaration ∨
         member (exportedInterfaces elements) (localName ref) = Missing ∧
         member (declaredInterfaces elements) (localName ref) = Present declaration) ∧
        loadedInterface this ref declaration ast = Return loaded)).
Proof.
  cbn [loadClassDeclaration].
  destruct (parseTypescriptFile _ _) as [ast|m|] eqn:Hparse; [|done..].
  destruct (getClassElements _ _ _) as [elements|m|] eqn:Helements; [|done..].
  intros H. exists ast, elements. split; [done|].
  destruct (member (exportedClasses elements) _) as [d| |] eqn:Hec;
    [injection H as H; left; eauto|done|].
  destruct (member (declaredClasses elements) _) as [d| |] eqn:Hdc;
    [injection H as H; left; eauto|done|].
  destruct ci.
  - destruct (member (exportedInterfaces elements) _) as [d| |] eqn:Hei;
      [injection H as H; right; eauto 10|done|].
    destruct (member (declaredInterfaces elements) _) as [d| |] eqn:Hdi;
      [injection H as H; right; eauto 10|done|].
    exfalso. repeat case_match; try done.
    destruct (exportedImportedAll elements); done.
  - exfalso. repeat case_match; try done.
    destruct (exportedImportedAll elements); done.
Qed.

Lemma tryExportAll_Return {A} (attempt : string → option (Result A))
    targets exhausted loaded :
  tryExportAll attempt targets exhausted = Some (Return loaded) →
  ∃ subFile, subFile ∈ targets ∧ attempt subFile = Some (Return loaded).
Proof.
  induction targets as [|subFile rest IH]; simpl; [done|].
  destruct (attempt subFile) as [[loaded'|m|]|] eqn:E; [| |done..].
  - intros [= ->]. exists subFile. split; [left|done].
  - intros (subFile' & Hin & H)%IH. exists subFile'. split; [by right|done].
Qed.

Lemma loadClassDeclaration_returned (this : ClassLoader) ci (fuel : nat) :
  ∀ ref loaded,
    loadClassDeclaration this fuel ref ci = Some (Return loaded) →
    loadClassDeclaration this 1 (loadedReference loaded) ci = Some (Return loaded).
Proof.
  induction fuel as [|fuel IH]; intros ref loaded H; [done|].
  cbn [loadClassDeclaration] in H.
  destruct (parseTypescriptFile _ _) as [ast|m|] eqn:Hparse; [|done..].
  destruct (getClassElements _ _ _) as [elements|m|] eqn:Helements; [|done..].
  destruct (member (exportedClasses elements) _) as [d| |] eqn:Hec; [|done|].
  { injection H as H. rewrite (loadedClass_reference _ _ _ _ _ H).
    cbn [loadClassDeclaration]. by rewrite Hparse, Helements, Hec, H. }
  destruct (member (declaredClasses elements) _) as [d| |] eqn:Hdc; [|done|].
  { injection H as H. rewrite (loadedClass_reference _ _ _ _ _ H).
    cbn [loadClassDeclaration]. by rewrite Hparse, Helements, Hec, Hdc, H. }
  assert (match member (importedElements elements) (localName ref) with
          | Present (Written target) => loadClassDeclaration this fuel target ci
          | Present (Builtin _) | Unknown => Some Beyond
          | Missing =>
            match member (exportedImportedElements elements) (localName ref) with
            | Present (Written target) => loadClassDeclaration this fuel target ci
            | Present (Builtin _) | Unknown => Some Beyond
            | Missing =>
                tryExportAll
                  (λ subFile, loadClassDeclaration this fuel
                                {| localName := localName ref; fileName := subFile |} ci)
                  (exportedImportedAll elements) (couldNotLoadError ci ref)
            end
          end = Some (Return loaded) →
          loadClassDeclaration this 1 (loadedReference loaded) ci
            = Some (Return loaded)) as Hrest.
  { destruct (member (importedElements elements) _) as [[target|?]| |];
      [by apply IH|done..|].
    destruct (member (exportedImportedElements elements) _) as [[target|?]| |];
      [by apply IH|done..|].
    intros (subFile & _ & Hfound)%tryExportAll_Return. by eapply IH. }
  destruct ci; [|by apply Hrest].
  destruct (member (exportedInterfaces elements) _) as [d| |] eqn:Hei; [|done|].
  { injection H as H. rewrite (loadedInterface_reference _ _ _ _ _ H).
    cbn [loadClassDeclaration]. by rewrite Hparse, Helements, Hec, Hdc, Hei, H. }
  destruct (member (declaredInterfaces elements) _) as [d| |] eqn:Hdi; [|done|].
  { injection H as H. rewrite (loadedInterface_reference _ _ _ _ _ H).
    cbn [loadClassDeclaration]. by rewrite Hparse, Helements, Hec, Hdc, Hei, Hdi, H. }
  by apply Hrest.
Qed.

(** X4: whatever chain of files led to it, a loaded declaration that a call
    returns names the file and the name under which the declaration is
    found: the call on the reference that the result carries returns that
    same result at once, without any hop. *)
Theorem loadClassDeclaration_idempotent (this : ClassLoader) (ci : bool)
    (ref : ClassReference) (loaded : ClassReferenceLoaded) :
  settles this ci ref (Return loaded) →
  loadClassDeclaration this 1 (loadedReference loaded) ci = Some (Return loaded).
Proof. intros [fuel H]. by eapply loadClassDeclaration_returned. Qed.

Lemma loadClassDeclaration_idempotent_witness :
  loadClassDeclaration fixture 1 (loadedReference classYLoaded) false
    = Some (Return classYLoaded).
Proof.
  apply (loadClassDeclaration_idempotent fixture false
           {| localName := "X"; fileName := "index" |}).
  exists 4. vm_compute. reflexivity.
Defined.

(** X5: a loaded declaration that a call returns is read from the file it
    names: its tree is the parsed file; its declaration is what the loader
    finds under its name in the exported classes of that file, or, when
    these do not have the name, in the declared classes (for an interface,
    which needs the flag and a name that neither index of classes has, in
    the exported or else the declared interfaces); its generics are those of
    the declaration, its abstract flag is the declaration's, and its comment
    is never the empty string. *)
Theorem loadClassDeclaration_result (this : ClassLoader) (ci : bool)
    (ref : ClassReference) (loaded : ClassReferenceLoaded) :
  settles this ci ref (Return loaded) →
  ∃ elements,
    fileLoads this (fileName (loadedReference loaded)) (loadedAst loaded) elements ∧
    loadedGenerics loaded = collectGenericTypes (loadedDeclaration loaded) ∧
    loadedComment loaded ≠ Some ""%string ∧
    match loaded with
    | LoadedClass c =>
        cl_abstract c = abstractOf (cl_declaration c) ∧
        (member (exportedClasses elements) (cl_localName c)
           = Present (cl_declaration c) ∨
         member (exportedClasses elements) (cl_localName c) = Missing ∧
         member (declaredClasses elements) (cl_localName c)
           = Present (cl_declaration c))
    | LoadedInterface i =>
        ci = true ∧
        member (exportedClasses elements) (il_localName i) = Missing ∧
        member (declaredClasses elements) (il_localName i) = Missing ∧
        (member (exportedInterfaces elements) (il_localName i)
           = Present (il_declaration i) ∨
         member (exportedInterfaces elements) (il_localName i) = Missing ∧
         member (declaredInterfaces elements) (il_localName i)
           = Present (il_declaration i))
    end.
Proof.
  intros [fuel H]. apply loadClassDeclaration_returned in H.
  apply loadClassDeclaration_direct in H
    as (ast & elements & Hfile &
        [(d & Hd & Hloaded)|(-> & Hec & Hdc & d & Hd & Hloaded)]).
  - apply enhanceLoadedWithComment_fields in Hloaded
      as (_ & Hast & Hgen & Hcomment & Hsame); [|done].
    destruct loaded as [c|i]; [|done]. simpl in *.
    destruct Hsame as [-> ->]. subst ast. exists elements. by rewrite Hgen.
  - apply enhanceLoadedWithComment_fields in Hloaded
      as (_ & Hast & Hgen & Hcomment & Hsame); [|done].
    destruct loaded as [c|i]; [done|]. simpl in *.
    subst d ast. exists elements. by rewrite Hgen.
Qed.

Lemma loadClassDeclaration_result_witness :
  ∃ elements,
    fileLoads fixture (fileName (loadedReference classYLoaded))
              (loadedAst classYLoaded) elements ∧
    loadedGenerics classYLoaded = collectGenericTypes (loadedDeclaration classYLoaded) ∧
    loadedComment classYLoaded ≠ Some ""%string ∧
    Some true = abstractOf (Written classY) ∧
    (member (exportedClasses elements) "Y"%string = Present (Written classY) ∨
     member (exportedClasses elements) "Y"%string = Missing ∧
     member (declaredClasses elements) "Y"%string = Present (Written classY)).
Proof.
  apply (loadClassDeclaration_result fixture false
           {| localName := "X"; fileName := "index" |} classYLoaded).
  exists 4. vm_compute. reflexivity.
Defined.

Lemma tryExportAll_reaches {A} (attempt : string → option (Result A))
    before subFile after exhausted r :
  tryExportAll attempt (before ++ subFile :: after) exhausted = Some r →
  (∃ earlier r0, earlier ∈ before ∧ attempt earlier = Some r0 ∧ ∀ m, r0 ≠ Throw m) ∨
  (∃ r', attempt subFile = Some r').
Proof.
  induction before as [|earlier before IH]; simpl.
  - destruct (attempt subFile) as [r'|]; [|done]. intros _. right. by exists r'.
  - destruct (attempt earlier) as [[loaded|m|]|] eqn:E; [| | |done].
    + intros _. left. exists earlier, (Return loaded). by split; [left|].
    + intros [(earlier' & r0 & Hin & H)|?]%IH; [|by right].
      left. exists earlier', r0. split; [by right|done].
    + intros _. left. exists earlier, Beyond. by split; [left|].
Qed.

(** A call that has settled has used one unit of its budget more than the
    call on the reference it hops to, and that call has settled. *)
Lemma indirection_budget (this : ClassLoader) ci ref target (fuel : nat) r :
  indirection this ci ref target →
  loadClassDeclaration this fuel ref ci = Some r →
  ∃ fuel' r', S fuel' = fuel ∧ loadClassDeclaration this fuel' target ci = Some r'.
Proof.
  intros Hhop H. destruct fuel as [|fuel]; [done|]. exists fuel.
  destruct Hhop as [ref ast elements target Hfile Hnot Hie
                   |ref ast elements target Hfile Hnot Hie Heie
                   |ref ast elements before subFile after Hfile Hnot Hbound
                      Hall Hbefore].
  - rewrite (loadClassDeclaration_imported _ _ _ _ _ _ _ Hfile Hnot Hie) in H.
    by exists r.
  - rewrite (loadClassDeclaration_exportedImported _ _ _ _ _ _ _ Hfile Hnot Hie Heie)
      in H.
    by exists r.
  - rewrite (loadClassDeclaration_exportedAll _ _ _ _ _ _ Hfile Hnot Hbound), Hall in H.
    apply tryExportAll_reaches in H
      as [(earlier & r0 & Hin & Hearlier & Hr0)|[r' Hr']].
    + destruct (proj1 (Forall_forall _ _) Hbefore _ Hin) as [m Hm].
      assert (settles this ci {| localName := localName ref; fileName := earlier |} r0)
        as Hsettles by by exists fuel.
      by destruct (Hr0 m (settles_unique _ _ _ _ _ Hsettles Hm)).
    + by exists r'.
Qed.

Lemma indirections_budget (this : ClassLoader) ci (N : nat) ref target :
  nsteps (indirection this ci) N ref target →
  ∀ (fuel : nat) r,
    loadClassDeclaration this fuel ref ci = Some r →
    ∃ fuel' r', fuel' + N = fuel ∧ loadClassDeclaration this fuel' target ci = Some r'.
Proof.
  induction 1 as [ref|N ref middle target Hhop _ IH]; intros fuel r H.
  - exists fuel, r. split; [lia|done].
  - destruct (indirection_budget _ _ _ _ _ _ Hhop H) as (fuel1 & r1 & <- & H1).
    destruct (IH _ _ H1) as (fuel' & r' & <- & H').
    exists fuel', r'. split; [lia|done].
Qed.

(** X6: a call settles only if the call on the reference it hops to settles.
    So a wildcard target whose call never settles, when its predecessors
    throw, keeps every later target from being tried, whatever those
    export; and likewise for the target of a binding. *)
Theorem unsettled_target_blocks (this : ClassLoader) (ci : bool)
    (ref target : ClassReference) :
  indirection this ci ref target →
  ¬ (∃ r', settles this ci target r') →
  ¬ ∃ r, settles this ci ref r.
Proof.
  intros Hhop Htarget (r & fuel & H). apply Htarget.
  destruct (indirection_budget _ _ _ _ _ _ Hhop H) as (fuel' & r' & _ & H').
  exists r', fuel'. done.
Qed.

(** X7: a reference from which one or more hops of the resolver lead back to
    itself, through import bindings, re-export bindings or wildcard targets,
    is never resolved: the call neither returns nor throws. *)
Theorem indirection_cycle_never_settles (this : ClassLoader) (ci : bool) (N : nat)
    (ref : ClassReference) :
  nsteps (indirection this ci) (S N) ref ref →
  ¬ ∃ r, settles this ci ref r.
Proof.
  intros Hcycle (r & fuel & H). revert r H.
  induction fuel as [fuel IH] using lt_wf_ind. intros r H.
  destruct (indirections_budget _ _ _ _ _ Hcycle _ _ H) as (fuel' & r' & Hfuel & H').
  apply (IH fuel' ltac:(lia) r' H').
Qed.

Lemma loop_fixture_hops :
  nsteps (indirection fixture false) 2
    {| localName := "X"; fileName := "loopA" |}
    {| localName := "X"; fileName := "loopA" |}.
Proof.
  apply nsteps_l with {| localName := "X"; fileName := "loopB" |};
    [|apply nsteps_l with {| localName := "X"; fileName := "loopA" |};
      [|apply nsteps_O]].
  - apply (via_exportedImportedAll fixture false
             {| localName := "X"; fileName := "loopA" |}
             (sourceFile [exportAllFrom "./loopB"])
             (setExportedImportedAll noClassElements ["loopB"%string])
             [] "loopB" []);
      [split; vm_compute; reflexivity | repeat split; vm_compute; reflexivity
      |split; vm_compute; reflexivity | reflexivity | constructor].
  - apply (via_exportedImportedAll fixture false
             {| localName := "X"; fileName := "loopB" |}
             (sourceFile [exportAllFrom "./loopA"])
             (setExportedImportedAll noClassElements ["loopA"%string])
             [] "loopA" []);
      [split; vm_compute; reflexivity | repeat split; vm_compute; reflexivity
      |split; vm_compute; reflexivity | reflexivity | constructor].
Defined.

Lemma indirection_cycle_never_settles_witness :
  ¬ ∃ r, settles fixture false {| localName := "X"; fileName := "loopA" |} r.
Proof. exact (indirection_cycle_never_settles fixture false 1 _ loop_fixture_hops). Defined.

Lemma unsettled_target_blocks_witness :
  ¬ ∃ r, settles fixture2 false {| localName := "Y"; fileName := "stuck" |} r.
Proof.
  apply (unsettled_target_blocks fixture2 false
           {| localName := "Y"; fileName := "stuck" |}
           {| localName := "Y"; fileName := "loopA" |}).
  - apply (via_exportedImportedAll fixture2 false
             {| localName := "Y"; fileName := "stuck" |}
             (sourceFile [exportAllFrom "./loopA"; exportAllFrom "./core"])
             (setExportedImportedAll noClassElements ["loopA"; "core"]%string)
             [] "loopA" ["core"%string]);
      [split; vm_compute; reflexivity | repeat split; vm_compute; reflexivity
      |split; vm_compute; reflexivity | reflexivity | constructor].
  - intros (r' & fuel & H).
    assert (loadClassDeclaration fixture2 fuel
              {| localName := "Y"; fileName := "loopA" |} false = None) as Hnone.
    { eapply (mutual_exportAll_unsettled fixture2 false "Y" "loopA" "loopB"
                (sourceFile [exportAllFrom "./loopB"])
                (setExportedImportedAll noClassElements ["loopB"%string])
                (sourceFile [exportAllFrom "./loopA"])
                (setExportedImportedAll noClassElements ["loopA"%string]) [] []);
        first [reflexivity | repeat split; vm_compute; reflexivity]. }
    congruence.
Defined.

(** X8: a hop through an import binding or a re-export binding hands on
    whatever the target settles with, an error included: after any number of
    such hops the call settles with [r] exactly when the call on the last
    reference does.  So the error of a name that is imported but nowhere
    declared names the last file and the imported name, not the reference
    the call was made with. *)
Theorem bound_chain_same_outcome (this : ClassLoader) (ci : bool) (N : nat)
    (ref last : ClassReference) (r : Result ClassReferenceLoaded) :
  nsteps (bound this ci) N ref last →
  settles this ci ref r ↔ settles this ci last r.
Proof.
  assert (∀ ref target (fuel : nat), bound this ci ref target →
            loadClassDeclaration this (S fuel) ref ci =
            loadClassDeclaration this fuel target ci) as Hstep.
  { intros ref' target fuel
      [ref'' ast elements target' Hfile Hnot Hie
      |ref'' ast elements target' Hfile Hnot Hie Heie].
    - by apply (loadClassDeclaration_imported _ _ _ _ _ _ _ Hfile Hnot Hie).
    - by apply (loadClassDeclaration_exportedImported _ _ _ _ _ _ _ Hfile Hnot Hie Heie). }
  induction 1 as [ref|N ref middle last Hbound _ IH]; [done|].
  rewrite <- IH. split.
  - intros [[|fuel] H]; [done|]. exists fuel. by rewrite <- (Hstep _ _ _ Hbound).
  - intros [fuel H]. exists (S fuel). by rewrite (Hstep _ _ _ Hbound).
Qed.

Lemma bound_chain_same_outcome_witness :
  settles fixture2 false {| localName := "M"; fileName := "app" |}
    (Throw "Could not load class Missing from lib").
Proof.
  apply (bound_chain_same_outcome fixture2 false 1
           {| localName := "M"; fileName := "app" |}
           {| localName := "Missing"; fileName := "lib" |}).
  - apply nsteps_l with {| localName := "Missing"; fileName := "lib" |};
      [|apply nsteps_O].
    apply (bound_imported fixture2 false
             {| localName := "M"; fileName := "app" |}
             (sourceFile [ImportDeclaration (StringLiteral "./lib")
                            [ImportSpecifier "M" "Missing"]])
             (setImportedElements noClassElements
                {[ "M"%string := {| localName := "Missing"; fileName := "lib" |} ]})).
    + split; vm_compute; reflexivity.
    + repeat split; vm_compute; reflexivity.
    + vm_compute. reflexivity.
  - exists 1. vm_compute. reflexivity.
Defined.

(** ** Interfaces and the flag *)

Lemma classifyStatements_withoutInterfaces (this : ClassLoader) file statements :
  ∀ elements,
    classifyStatements (withoutInterfaces this) file elements statements =
    classifyStatements this file elements statements.
Proof.
  induction statements as [|statement statements IH]; intros elements; [done|].
  simpl.
  change (classifyStatement (withoutInterfaces this) file elements statement)
    with (classifyStatement this file elements statement).
  destruct (classifyStatement this file elements statement); simpl; [|done..].
  apply IH.
Qed.

Lemma classifyStatement_declaresInterface (this : ClassLoader) file elements statement :
  declaresInterface statement = true →
  ∃ elements', classifyStatement this file elements statement = Return elements' ∧
               sameClasses elements elements'.
Proof.
  destruct statement as [[[d|d|]|] source specifiers|source|d|d|source specifiers|];
    simpl; try done; intros _; eexists; (split; [reflexivity|by repeat split]).
Qed.

Lemma classifyStatement_sameClasses (this : ClassLoader) file elements1 elements2
    statement :
  sameClasses elements1 elements2 →
  sameClassExtraction (classifyStatement this file elements1 statement)
                      (classifyStatement this file elements2 statement).
Proof.
  intros (Hec & Heie & Hall & Heu & Hdc & Hie).
  destruct statement as [[[d|d|]|] source specifiers|source|d|d|source specifiers|];
    simpl; repeat case_match; simpl; try done;
    unfold sameClasses; simpl; rewrite ?Hec, ?Heie, ?Hall, ?Heu, ?Hdc, ?Hie;
    by repeat split.
Qed.

Lemma classifyStatements_sameClasses (this : ClassLoader) file statements :
  ∀ elements1 elements2,
    sameClasses elements1 elements2 →
    sameClassExtraction
      (classifyStatements this file elements1 statements)
      (classifyStatements this file elements2
         (filter (λ statement, ¬ declaresInterface statement) statements)).
Proof.
  induction statements as [|statement statements IH];
    intros elements1 elements2 Hsame; [done|].
  rewrite filter_cons. destruct (declaresInterface statement) eqn:Hinterface.
  - rewrite decide_False by (intros Hnot; by apply Hnot).
    destruct (classifyStatement_declaresInterface this file elements1 statement
                Hinterface)
      as (elements1' & Hstatement & (Hec & Heie & Hall & Heu & Hdc & Hie)).
    simpl. rewrite Hstatement. simpl. apply IH.
    destruct Hsame as (Hec' & Heie' & Hall' & Heu' & Hdc' & Hie').
    repeat split; congruence.
  - rewrite decide_True by (intros Hyes; exact Hyes).
    simpl.
    pose proof (classifyStatement_sameClasses this file _ _ statement Hsame) as Hstep.
    destruct (classifyStatement this file elements1 statement) as [e1|m1|],
             (classifyStatement this file elements2 statement) as [e2|m2|];
      simpl in *; try done.
    by apply IH.
Qed.

Lemma loadClassDeclaration_withoutInterfaces (this : ClassLoader) (fuel : nat) :
  ∀ ref,
    sameOutcome (loadClassDeclaration this fuel ref false)
                (loadClassDeclaration (withoutInterfaces this) fuel ref false).
Proof.
  induction fuel as [|fuel IH]; intros ref; [done|]. simpl.
  destruct (parseTypescriptFile (resolutionContext this) (fileName ref))
    as [ast|m|]; simpl; [|done..].
  unfold getClassElements. simpl.
  rewrite classifyStatements_withoutInterfaces.
  assert (sameClasses noClassElements noClassElements) as Hrefl by by repeat split.
  pose proof (classifyStatements_sameClasses this (fileName ref) (body ast)
                _ _ Hrefl) as Hextraction.
  destruct (classifyStatements this (fileName ref) noClassElements (body ast))
    as [elements|m|],
    (classifyStatements this (fileName ref) noClassElements
       (filter (λ statement, ¬ declaresInterface statement) (body ast)))
    as [elements'|m'|]; simpl in Hextraction; try done.
  destruct Hextraction as (Hec & Heie & Hall & Heu & Hdc & Hie).
  rewrite <- Hec, <- Heie, <- Hall, <- Hdc, <- Hie.
  assert (∀ d ast', comments ast' = comments ast →
            sameOutcome (Some (loadedClass this ref d ast))
              (Some (loadedClass (withoutInterfaces this) ref d ast'))) as Hclass.
  { intros d ast' Hcomments. apply enhanceLoadedWithComment_sameOutcome; [done| |done].
    unfold commentSubject. simpl. by rewrite Hcomments. }
  repeat case_match; try done; try (by apply Hclass);
    try apply IH; apply tryExportAll_sameOutcome; intros; apply IH.
Qed.

(** X9: with the flag off the interfaces of the package play no part.  The
    call has the same outcome (the same error, or a class with the same
    names, declaration, abstract flag and generics, or no outcome) when
    every interface declaration, exported or not, is removed from every
    file. *)
Theorem interfaces_ignored_without_flag (this : ClassLoader) (fuel : nat)
    (ref : ClassReference) :
  sameOutcome (loadClassDeclaration this fuel ref false)
              (loadClassDeclaration (withoutInterfaces this) fuel ref false).
Proof. apply loadClassDeclaration_withoutInterfaces. Qed.

(** X14: the resolver never consults [exportedUnknowns].  A file that ends
    with [export { A as B }], for [B] other than [__proto__], has
    [exportedUnknowns[B] = A] among its class elements and its other indexes
    unchanged; and for every reference and either value of the flag, the
    call of [loadClassDeclaration] has the same outcome (the same error, or
    a loaded reference with the same tag, names, declaration, abstract flag,
    generics and comment, or no outcome) when every file is stripped of its
    exports of unknown origin: nothing is resolved through them. *)
Theorem exportedUnknowns_never_consulted (this : ClassLoader) :
  (∀ file ast elements A B,
     B ≠ "__proto__"%string →
     getClassElements this file ast = Return elements →
     ∃ elements',
       getClassElements this file
         {| body := body ast ++
              [ExportNamedDeclaration None None
                 [{| es_local := A; es_exported := B |}]];
            comments := comments ast |} = Return elements' ∧
       exportedUnknowns elements' !! B = Some A ∧
       sameIndexes elements elements') ∧
  (∀ fuel ref ci,
     sameOutcome (loadClassDeclaration this fuel ref ci)
                 (loadClassDeclaration (withoutUnknownExports this) fuel ref ci)).
Proof.
  split.
  - intros file ast elements A B HB Helements.
    unfold getClassElements in *. simpl in *.
    rewrite classifyStatements_app, Helements. simpl.
    eexists. split; [reflexivity|]. simpl. split; [|by repeat split].
    unfold assignPrimitive. rewrite decide_False by done. apply lookup_insert_eq.
  - intros fuel ref ci. apply loadClassDeclaration_withoutUnknownExports.
Qed.

(** ** The list of ignored classes *)

Lemma ignoreClasses_lookup (entries : list string) (name : string) :
  ∀ acc : gmap string bool,
    foldl (λ acc entry, assignPrimitive entry true acc) acc entries !! name =
      if decide (name ∈ entries ∧ name ≠ "__proto__"%string) then Some true
      else acc !! name.
Proof.
  induction entries as [|entry entries IH]; intros acc.
  - rewrite decide_False; [done|]. intros [Hin _]. by apply elem_of_nil in Hin.
  - change (foldl (λ acc entry, assignPrimitive entry true acc)
              (assignPrimitive entry true acc) entries !! name =
            if decide (name ∈ entry :: entries ∧ name ≠ "__proto__"%string)
            then Some true else acc !! name).
    rewrite IH.
    destruct (decide (name ∈ entries ∧ name ≠ "__proto__"%string)) as [[Hin Hne]|Hnot].
    + rewrite decide_True; [done|]. split; [by right|done].
    + unfold assignPrimitive.
      destruct (decide (entry = "__proto__"%string)) as [->|Hentry].
      * rewrite decide_False; [done|].
        intros [[->|Hin]%elem_of_cons Hne]; [done|]. by apply Hnot.
      * destruct (decide (entry = name)) as [->|Hne].
        -- rewrite lookup_insert_eq, decide_True; [done|]. split; [left|done].
        -- rewrite lookup_insert_ne by done. rewrite decide_False; [done|].
           intros [[->|Hin]%elem_of_cons Hproto]; [done|]. by apply Hnot.
Qed.

(** X11: with the option [-i], the value of [ignoreClasses] is a hash whose
    own entries map a name to [true] exactly when the file lists it and it
    is not [__proto__], and map no name to anything else; it depends
    neither on the order of the list nor on repetitions in it; and without
    the option the value is not a hash but the empty array. *)
Theorem ignoreClasses_listed :
  ignoreClasses None = IgnoreArray ∧
  (∀ entries, ∃ own,
     ignoreClasses (Some entries) = IgnoreHash own ∧
     ∀ name, own !! name =
       if decide (name ∈ entries ∧ name ≠ "__proto__"%string) then Some true
       else None) ∧
  (∀ entries entries',
     (∀ name, name ∈ entries ↔ name ∈ entries') →
     ignoreClasses (Some entries) = ignoreClasses (Some entries')).
Proof.
  split; [done|]. split.
  - intros entries. eexists. split; [reflexivity|]. intros name.
    rewrite ignoreClasses_lookup. by destruct (decide _).
  - intros entries entries' Hsame. simpl. f_equal. apply map_eq. intros name.
    rewrite !ignoreClasses_lookup.
    destruct (decide (name ∈ entries ∧ name ≠ "__proto__"%string)) as [[Hin Hne]|Hnot].
    + rewrite decide_True; [done|]. split; [by apply Hsame|done].
    + rewrite decide_False; [done|]. intros [Hin Hne]. apply Hnot.
      split; [by apply Hsame|done].
Qed.

(** ** A class exported by the file of the reference *)

(** X13: when the file of the reference parses, exports no class without a
    name and exports a class of the requested name, the call settles at
    once, whatever the flag, the budget, the other declarations and the
    bindings of the file: with the last exported class of that name, loaded
    from that file and annotated by the comment loader, or with the error
    the comment loader throws on it. *)
Theorem exported_class_resolves_directly (this : ClassLoader) (file name : string)
    (ast : AST) (declaration : ClassDeclaration) (fuel : nat) (ci : bool) :
  parseTypescriptFile (resolutionContext this) file = Return ast →
  firstNamelessExport (body ast) = None →
  lastNamed class_id name (omap exportedClassOf (body ast)) = Some declaration →
  loadClassDeclaration this (S fuel) {| localName := name; fileName := file |} ci =
    Some (loadedClass this {| localName := name; fileName := file |}
            (Written declaration) ast).
Proof.
  intros Hparse Hnamed Hlast.
  pose proof (classifyStatements_nameless this file (body ast) noClassElements)
    as Helements.
  rewrite Hnamed in Helements. destruct Helements as [elements Helements].
  destruct (getClassElements_lookup_last this file ast elements Helements) as (Hec & _).
  assert (member (exportedClasses elements) name = Present (Written declaration))
    as Hmember by (apply member_Written; by rewrite Hec).
  cbn [loadClassDeclaration]. simpl fileName. simpl localName.
  rewrite Hparse. unfold getClassElements in *. by rewrite Helements, Hmember.
Qed.

Lemma exported_class_resolves_directly_witness :
  loadClassDeclaration fixture2 1 {| localName := "Y"; fileName := "twice" |} true =
    Some (loadedClass fixture2 {| localName := "Y"; fileName := "twice" |}
            (Written classY)
            (sourceFile
               [ExportNamedDeclaration (Some (ExportedClass plainY)) None [];
                ExportNamedDeclaration (Some (ExportedClass classY)) None []])).
Proof.
  apply (exported_class_resolves_directly fixture2 "twice" "Y" _ classY 0 true).
  - vm_compute. reflexivity.
  - vm_compute. reflexivity.
  - vm_compute. reflexivity.
Defined.

(** ** Names that every object has *)

(** X15: a name that [Object.prototype] has ([toString], [constructor],
    [valueOf], ...) is found in the exported classes of every file.  Where
    the file exports no class of that name and no class named [__proto__],
    the call takes the member of [Object.prototype] for an exported class
    of the file: whatever the flag and the budget, it settles with what the
    comment loader makes of that member, and the declared classes, the
    interfaces, the bindings and the wildcard targets of the file are not
    looked at. *)
Theorem inherited_name_taken_for_class (this : ClassLoader) (ref : ClassReference)
    (ast : AST) (elements : ClassElements) (fuel : nat) (ci : bool) :
  fileLoads this (fileName ref) ast elements →
  localName ref ∈ objectPrototypeMembers →
  lastNamed class_id (localName ref) (omap exportedClassOf (body ast)) = None →
  lastNamed class_id "__proto__"%string (omap exportedClassOf (body ast)) = None →
  loadClassDeclaration this (S fuel) ref ci =
    Some (loadedClass this ref (Builtin (localName ref)) ast).
Proof.
  intros [Hparse Helements] Hin Hname Hproto.
  destruct (getClassElements_lookup_last this _ _ _ Helements) as (Hec & _).
  assert (member (exportedClasses elements) (localName ref) =
            Present (Builtin (localName ref))) as Hmember.
  { rewrite (member_memberOfLast class_id _ _ Hec). unfold memberOfLast.
    by rewrite Hname, Hproto, decide_True. }
  cbn [loadClassDeclaration]. by rewrite Hparse, Helements, Hmember.
Qed.

Lemma inherited_name_taken_for_class_witness :
  loadClassDeclaration fixture 1 {| localName := "toString"; fileName := "dead" |} false
    = Some (Throw "TypeError: Cannot read properties of undefined (reading '0')").
Proof.
  apply (inherited_name_taken_for_class fixture
           {| localName := "toString"; fileName := "dead" |}
           (sourceFile [exportAllFrom "./empty"])
           (setExportedImportedAll noClassElements ["empty"%string]) 0 false).
  - split; vm_compute; reflexivity.
  - apply (bool_decide_unpack _). vm_compute. exact I.
  - vm_compute. reflexivity.
  - vm_compute. reflexivity.
Defined.

(** ** Examples *)

Example load_core :
  loadClassDeclaration fixture 1 {| localName := "Y"; fileName := "core" |} false
    = Some (Return classYLoaded).
Proof. vm_compute. reflexivity. Qed.

Example load_index :
  loadClassDeclaration fixture 4 {| localName := "X"; fileName := "index" |} false
    = Some (Return classYLoaded).
Proof. vm_compute. reflexivity. Qed.

Example load_index_short :
  loadClassDeclaration fixture 3 {| localName := "X"; fileName := "index" |} false
    = None.
Proof. vm_compute. reflexivity. Qed.

Example load_overBroken :
  loadClassDeclaration fixture 2 {| localName := "Y"; fileName := "overBroken" |} false
    = Some (Return classYLoaded).
Proof. vm_compute. reflexivity. Qed.

Example load_defaulted :
  loadClassDeclaration fixture 1 {| localName := "Y"; fileName := "defaulted" |} true
    = Some (Throw "Could not load class or interface Y from defaulted").
Proof. vm_compute. reflexivity. Qed.

Example load_broken :
  loadClassDeclaration fixture 1 {| localName := "Y"; fileName := "broken" |} true
    = Some (Throw "Export parsing failure: missing exported class name in broken on line 3 column 7").
Proof. vm_compute. reflexivity. Qed.

Example elements_aliased :
  exportedUnknowns <$> loadClassElements fixture "aliased"
    = Return {[ "B"%string := "A"%string ]}.
Proof. vm_compute. reflexivity. Qed.

Example load_aliased :
  loadClassDeclaration fixture 2 {| localName := "B"; fileName := "aliased" |} true
    = Some (Throw "Could not load class or interface B from aliased").
Proof. vm_compute. reflexivity. Qed.

Example load_aliased_local :
  loadClassDeclaration fixture 2 {| localName := "A"; fileName := "aliased" |} true
    = Some (Return classYLoaded).
Proof. vm_compute. reflexivity. Qed.

(** The name [toString] is in every index of every file: the loader takes
    the member of [Object.prototype] for a class of the file, and the call
    ends with whatever the comment loader makes of it. *)
Example load_toString :
  loadClassDeclaration fixture 1 {| localName := "toString"; fileName := "empty" |} false
    = Some (Throw "TypeError: Cannot read properties of undefined (reading '0')").
Proof. vm_compute. reflexivity. Qed.

(** In a file with [export class __proto__ {}] the index of exported classes
    has that declaration for its prototype, and the test of the loader
    reads through it. *)
Example load_proto_file :
  loadClassDeclaration fixture 1 {| localName := "Y"; fileName := "proto" |} false
    = Some Beyond.
Proof. vm_compute. reflexivity. Qed.

Example elements_proto_export :
  exportedUnknowns <$>
    getClassElements fixture "aliased"
      (sourceFile [ExportNamedDeclaration None None
                     [{| es_local := "A"; es_exported := "__proto__" |}]])
    = Return ∅.
Proof. vm_compute. reflexivity. Qed.
